(** * The Empower agent of srsenb (srsenb/src/empoweragent.cc)

    A shallow embedding of [Empower::Agent::Agent]: its private state
    ([PrivateBits]), [init], [fillHeader] and the body of [mainLoop],
    written in a small exception-and-trace monad over the state of the
    agent and of the transport it talks to.  The transport ([IO]), the
    wire codec ([MessageEncoder] / [MessageDecoder]) and the address parser
    belong to the empoweragentproto library; they are taken as parameters. *)

From Stdlib Require Import ZArith NArith List String Bool Lia.
From Stdlib.Strings Require Import Byte.
Import ListNotations.
Open Scope Z_scope.

(** ** Protocol vocabulary *)

Definition Buffer := list byte.

(** Modelled from the spec: the [MessageClass] enumeration is declared in the
    empoweragentproto headers.  The source names [REQUEST_SET] and
    [RESPONSE_SUCCESS]; the spec adds response-failure and leaves the set
    open, hence the last constructor. *)
Inductive MessageClass :=
| REQUEST_SET
| RESPONSE_SUCCESS
| RESPONSE_FAILURE
| MessageClass_other (code : Z).

(** Modelled from the spec: the [EntityClass] enumeration is declared in the
    empoweragentproto headers.  The source names [HELLO_SERVICE] and
    [CAPABILITIES_SERVICE]; the spec calls the set extensible. *)
Inductive EntityClass :=
| HELLO_SERVICE
| CAPABILITIES_SERVICE
| EntityClass_other (code : Z).

Definition isRequest (c : MessageClass) : bool :=
  match c with REQUEST_SET => true | _ => false end.

Definition isResponse (c : MessageClass) : bool :=
  match c with RESPONSE_SUCCESS | RESPONSE_FAILURE => true | _ => false end.

Definition isHello (e : EntityClass) : bool :=
  match e with HELLO_SERVICE => true | _ => false end.

Definition isCapabilities (e : EntityClass) : bool :=
  match e with CAPABILITIES_SERVICE => true | _ => false end.

(** The fields of the common header, as the agent sets them on a
    [CommonHeaderEncoder] and reads them from a decoded header. *)
Record CommonHeader := mkHeader {
  h_sequence     : Z;
  h_elementId    : Z;
  h_messageClass : MessageClass;
  h_entityClass  : EntityClass
}.

Definition CommonHeaderEncoder := CommonHeader.

Definition set_sequence (v : Z) (h : CommonHeaderEncoder) : CommonHeaderEncoder :=
  mkHeader v (h_elementId h) (h_messageClass h) (h_entityClass h).
Definition set_elementId (v : Z) (h : CommonHeaderEncoder) : CommonHeaderEncoder :=
  mkHeader (h_sequence h) v (h_messageClass h) (h_entityClass h).
Definition set_messageClass (v : MessageClass) (h : CommonHeaderEncoder) : CommonHeaderEncoder :=
  mkHeader (h_sequence h) (h_elementId h) v (h_entityClass h).
Definition set_entityClass (v : EntityClass) (h : CommonHeaderEncoder) : CommonHeaderEncoder :=
  mkHeader (h_sequence h) (h_elementId h) (h_messageClass h) v.

(** The two TLVs the agent builds. *)
Inductive TLV :=
| TLVCell (cell_pci cell_nPrb cell_dlEarfcn cell_ulEarfcn : Z)
| TLVPeriodicityMs (milliseconds : Z).

(** A [MessageEncoder] under construction: its header and the TLVs added. *)
Record MessageEncoder := mkEncoder {
  enc_header : CommonHeaderEncoder;
  enc_tlvs   : list TLV
}.

Definition with_header (f : CommonHeaderEncoder -> CommonHeaderEncoder)
  (m : MessageEncoder) : MessageEncoder :=
  mkEncoder (f (enc_header m)) (enc_tlvs m).
Definition add (t : TLV) (m : MessageEncoder) : MessageEncoder :=
  mkEncoder (enc_header m) (enc_tlvs m ++ [t]).

(** What [MessageDecoder] exposes to the agent. *)
Record MessageDecoder := mkDecoder {
  isFailure : bool;
  header    : CommonHeader
}.

(** The codec, external to the agent. [codec_blank] is the header of a
    freshly constructed encoder, [codec_data] the bytes [end().data()] yields. *)
Record Codec := mkCodec {
  codec_blank  : CommonHeaderEncoder;
  codec_data   : MessageEncoder -> Buffer;
  codec_decode : Buffer -> MessageDecoder
}.

(** ** The transport *)

(** What a call may throw: an exception derived from [std::exception], with
    its [what()], or anything else.  The two [catch] clauses of the agent
    (lines 87 and 259) take [std::exception&] only. *)
Inductive Exception :=
| StdException (what : string)
| OtherException.

Inductive IOResult (T A : Type) :=
| IOok (a : A) (t : T)
| IOexn (ex : Exception) (t : T).
Arguments IOok {T A} a t.
Arguments IOexn {T A} ex t.

Record IPv4Address := mkIPv4 { ipv4_bits : Z }.

(** The member functions of [IO] the agent calls, over a transport state [T]
    (the [IO] object and the network behind it).  Each call may return or
    throw.  The three setters of line 130, which [mainLoop] calls before its
    [try] block, are taken to store their argument and return. *)
Record IO (T : Type) := mkIO {
  io_address            : IPv4Address -> T -> T;
  io_port               : Z -> T -> T;
  io_setDelay           : Z -> T -> T;
  io_makeMessageBuffer  : T -> IOResult T unit;
  io_isConnectionClosed : T -> IOResult T bool;
  io_openSocket         : T -> IOResult T unit;
  io_sleep              : T -> IOResult T unit;
  io_isDataAvailable    : T -> IOResult T bool;
  io_readMessage        : T -> IOResult T Buffer;
  io_writeMessage       : Buffer -> T -> IOResult T Z;
  io_delay              : T -> IOResult T Z
}.
Arguments io_address {T}.
Arguments io_port {T}.
Arguments io_setDelay {T}.
Arguments io_makeMessageBuffer {T}.
Arguments io_isConnectionClosed {T}.
Arguments io_openSocket {T}.
Arguments io_sleep {T}.
Arguments io_isDataAvailable {T}.
Arguments io_readMessage {T}.
Arguments io_writeMessage {T}.
Arguments io_delay {T}.

(** ** Agent state *)

Record PrivateBits := mkBits {
  agentThread       : option Z;
  controllerAddress : IPv4Address;
  controllerPort    : Z;
  delayms           : Z;
  pci               : Z;
  dlEarfcn          : Z;
  ulEarfcn          : Z;
  nPrb              : Z;
  enbId             : Z;
  sequence          : Z
}.

(** The fields of [srsenb::all_args_t] that [init] reads. *)
Record all_args_t := mkArgs {
  empoweragent_controller_addr : string;
  empoweragent_controller_port : Z;
  empoweragent_delayms         : Z;
  enb_pci                      : Z;
  enb_dl_earfcn                : Z;
  enb_ul_earfcn                : Z;
  enb_n_prb                    : Z;
  stack_s1ap_enb_id            : Z
}.

(** Conversions to the unsigned types of the fields. *)
Definition u8  (x : Z) : Z := x mod 2^8.
Definition u16 (x : Z) : Z := x mod 2^16.
Definition u32 (x : Z) : Z := x mod 2^32.
Definition u64 (x : Z) : Z := x mod 2^64.

(** ** Observable events *)

Inductive Printed :=
| PStr (s : string)
| PBool (b : bool)
| PBuf (b : Buffer)
| PNum (n : Z).

Inductive Event :=
| CallMakeMessageBuffer
| CallIsConnectionClosed
| CallOpenSocket
| CallSleep
| CallIsDataAvailable
| CallReadMessage
| CallWriteMessage (m : MessageEncoder)
| CallDelay
| CallPthreadCreate
| Cout (items : list Printed)
| Cerr (items : list Printed).

(** The messages handed to [writeMessage], in order. *)
Fixpoint written (evs : list Event) : list MessageEncoder :=
  match evs with
  | [] => []
  | CallWriteMessage m :: r => m :: written r
  | _ :: r => written r
  end.

Definition isOpenSocket (e : Event) : bool :=
  match e with CallOpenSocket => true | _ => false end.
Definition isSleep (e : Event) : bool :=
  match e with CallSleep => true | _ => false end.
Definition isReadMessage (e : Event) : bool :=
  match e with CallReadMessage => true | _ => false end.
Definition isWriteMessage (e : Event) : bool :=
  match e with CallWriteMessage _ => true | _ => false end.
Definition isCerr (e : Event) : bool :=
  match e with Cerr _ => true | _ => false end.
Definition isIOCall (e : Event) : bool :=
  match e with Cout _ | Cerr _ => false | _ => true end.

Definition count (f : Event -> bool) (evs : list Event) : nat :=
  List.length (filter f evs).

(** ** The monad: state, exceptions, trace *)

Record State (T : Type) := mkState {
  st_agent : PrivateBits;
  st_io    : T
}.
Arguments mkState {T}.
Arguments st_agent {T}.
Arguments st_io {T}.

Inductive Outcome (T A : Type) :=
| Normal (a : A) (s : State T) (evs : list Event)
| Thrown (ex : Exception) (s : State T) (evs : list Event).
Arguments Normal {T A}.
Arguments Thrown {T A}.

Definition M (T A : Type) := State T -> Outcome T A.

Definition events {T A} (o : Outcome T A) : list Event :=
  match o with Normal _ _ e => e | Thrown _ _ e => e end.
Definition final {T A} (o : Outcome T A) : State T :=
  match o with Normal _ s _ => s | Thrown _ s _ => s end.
Definition returned {T A} (o : Outcome T A) : bool :=
  match o with Normal _ _ _ => true | Thrown _ _ _ => false end.

Definition ret {T A} (a : A) : M T A := fun s => Normal a s [].

Definition bind {T A B} (m : M T A) (f : A -> M T B) : M T B :=
  fun s =>
    match m s with
    | Normal a s1 e1 =>
        match f a s1 with
        | Normal b s2 e2 => Normal b s2 (e1 ++ e2)
        | Thrown w s2 e2 => Thrown w s2 (e1 ++ e2)
        end
    | Thrown w s1 e1 => Thrown w s1 e1
    end.

(** [try { m } catch (std::exception& e) { handler e.what() }]: anything
    that is not a [std::exception] passes through. *)
Definition try_catch {T A} (m : M T A) (handler : string -> M T A) : M T A :=
  fun s =>
    match m s with
    | Normal a s1 e1 => Normal a s1 e1
    | Thrown (StdException what) s1 e1 =>
        match handler what s1 with
        | Normal b s2 e2 => Normal b s2 (e1 ++ e2)
        | Thrown w' s2 e2 => Thrown w' s2 (e1 ++ e2)
        end
    | Thrown OtherException s1 e1 => Thrown OtherException s1 e1
    end.

Declare Scope agent_scope.
Delimit Scope agent_scope with agent.
Notation "x <- m ;; k" := (bind m (fun x => k))
  (at level 61, m at next level, right associativity) : agent_scope.
Notation "m ;; k" := (bind m (fun _ => k))
  (at level 61, right associativity) : agent_scope.
Open Scope agent_scope.

Definition emit {T} (e : Event) : M T unit := fun s => Normal tt s [e].
Definition cout {T} (items : list Printed) : M T unit := emit (Cout items).
Definition cerr {T} (items : list Printed) : M T unit := emit (Cerr items).

Definition getBits {T} : M T PrivateBits := fun s => Normal (st_agent s) s [].

(** One call into the transport: the call is recorded, then it returns or throws. *)
Definition call {T A} (e : Event) (op : T -> IOResult T A) : M T A :=
  fun s =>
    match op (st_io s) with
    | IOok a t => Normal a (mkState (st_agent s) t) [e]
    | IOexn w t => Thrown w (mkState (st_agent s) t) [e]
    end.

Definition nl : string := String (Ascii.ascii_of_nat 10) EmptyString.

Definition modify {T} (f : PrivateBits -> PrivateBits) : M T unit :=
  fun s => Normal tt (mkState (f (st_agent s)) (st_io s)) [].

(** Assignments to the fields of the private bits. *)
Definition with_agentThread (v : option Z) (p : PrivateBits) : PrivateBits :=
  mkBits v (controllerAddress p) (controllerPort p) (delayms p)
         (pci p) (dlEarfcn p) (ulEarfcn p) (nPrb p) (enbId p) (sequence p).
Definition with_controllerAddress (v : IPv4Address) (p : PrivateBits) : PrivateBits :=
  mkBits (agentThread p) v (controllerPort p) (delayms p)
         (pci p) (dlEarfcn p) (ulEarfcn p) (nPrb p) (enbId p) (sequence p).
Definition with_controllerPort (v : Z) (p : PrivateBits) : PrivateBits :=
  mkBits (agentThread p) (controllerAddress p) v (delayms p)
         (pci p) (dlEarfcn p) (ulEarfcn p) (nPrb p) (enbId p) (sequence p).
Definition with_delayms (v : Z) (p : PrivateBits) : PrivateBits :=
  mkBits (agentThread p) (controllerAddress p) (controllerPort p) v
         (pci p) (dlEarfcn p) (ulEarfcn p) (nPrb p) (enbId p) (sequence p).
Definition with_pci (v : Z) (p : PrivateBits) : PrivateBits :=
  mkBits (agentThread p) (controllerAddress p) (controllerPort p) (delayms p)
         v (dlEarfcn p) (ulEarfcn p) (nPrb p) (enbId p) (sequence p).
Definition with_dlEarfcn (v : Z) (p : PrivateBits) : PrivateBits :=
  mkBits (agentThread p) (controllerAddress p) (controllerPort p) (delayms p)
         (pci p) v (ulEarfcn p) (nPrb p) (enbId p) (sequence p).
Definition with_ulEarfcn (v : Z) (p : PrivateBits) : PrivateBits :=
  mkBits (agentThread p) (controllerAddress p) (controllerPort p) (delayms p)
         (pci p) (dlEarfcn p) v (nPrb p) (enbId p) (sequence p).
Definition with_nPrb (v : Z) (p : PrivateBits) : PrivateBits :=
  mkBits (agentThread p) (controllerAddress p) (controllerPort p) (delayms p)
         (pci p) (dlEarfcn p) (ulEarfcn p) v (enbId p) (sequence p).
Definition with_enbId (v : Z) (p : PrivateBits) : PrivateBits :=
  mkBits (agentThread p) (controllerAddress p) (controllerPort p) (delayms p)
         (pci p) (dlEarfcn p) (ulEarfcn p) (nPrb p) v (sequence p).

Definition with_sequence (v : Z) (p : PrivateBits) : PrivateBits :=
  mkBits (agentThread p) (controllerAddress p) (controllerPort p) (delayms p)
         (pci p) (dlEarfcn p) (ulEarfcn p) (nPrb p) (enbId p) v.

(** ** The agent *)

Section Agent.

Context {T : Type}.

(** [NetworkLib::IPv4Address(const std::string&)]: the address, or the
    [what()] of the [std::exception] the constructor throws. *)
Variable IPv4Address_of_string : string -> IPv4Address + string.

(** [pthread_create] with the attributes [start] sets up: return code,
    thread identifier, and the world with the new thread in it. *)
Variable pthread_create : T -> Z * Z * T.

Variable io : IO T.
Variable codec : Codec.

Definition new_IPv4Address (str : string) : M T IPv4Address :=
  fun s =>
    match IPv4Address_of_string str with
    | inl a => Normal a s []
    | inr what => Thrown (StdException what) s []
    end.

(** [Agent::init], lines 60-94.  It returns [true] on error. *)
Definition init (all_args : all_args_t) : M T bool :=
  try_catch
    (a <- new_IPv4Address (empoweragent_controller_addr all_args) ;;
     modify (with_controllerAddress a) ;;
     modify (with_controllerPort (u16 (empoweragent_controller_port all_args))) ;;
     modify (with_delayms (u32 (empoweragent_delayms all_args))) ;;
     modify (with_pci (u16 (enb_pci all_args))) ;;
     modify (with_dlEarfcn (u32 (enb_dl_earfcn all_args))) ;;
     modify (with_ulEarfcn (u32 (enb_ul_earfcn all_args))) ;;
     modify (with_nPrb (u8 (enb_n_prb all_args))) ;;
     modify (with_enbId (u32 (stack_s1ap_enb_id all_args))) ;;
     modify (with_sequence 1) ;;
     ret false)
    (fun what =>
       cerr [PStr "AGENT: *** caught exception while initializing Empower agent: ";
             PStr what; PStr nl] ;;
       ret true).

(** [Agent::start], lines 96-115: spawns the thread that runs [mainLoop]. *)
Definition start : M T bool :=
  fun s =>
    let '(rc, tid, t) := pthread_create (st_io s) in
    if rc =? 0
    then Normal false (mkState (with_agentThread (Some tid) (st_agent s)) t)
                [CallPthreadCreate]
    else Normal true (mkState (st_agent s) t)
                [CallPthreadCreate;
                 Cerr [PStr ("AGENT: *** error starting Empower agent thread" ++ nl)%string]].

(** [Agent::fillHeader], lines 264-270. *)
Definition fillHeader (headerEncoder : CommonHeaderEncoder) : M T CommonHeaderEncoder :=
  p <- getBits ;;
  let h := set_elementId (u64 (enbId p)) (set_sequence (sequence p) headerEncoder) in
  modify (with_sequence (u32 (sequence p + 1))) ;;
  ret h.

Definition new_MessageEncoder : MessageEncoder := mkEncoder (codec_blank codec) [].

Definition isConnectionClosed : M T bool :=
  call CallIsConnectionClosed (io_isConnectionClosed io).
Definition openSocket : M T unit := call CallOpenSocket (io_openSocket io).
Definition sleep : M T unit := call CallSleep (io_sleep io).
Definition isDataAvailable : M T bool :=
  call CallIsDataAvailable (io_isDataAvailable io).
Definition readMessage : M T Buffer := call CallReadMessage (io_readMessage io).
Definition delay : M T Z := call CallDelay (io_delay io).
Definition makeMessageBuffer : M T unit :=
  call CallMakeMessageBuffer (io_makeMessageBuffer io).
Definition writeMessage (m : MessageEncoder) : M T Z :=
  call (CallWriteMessage m) (io_writeMessage io (codec_data codec m)).

(** The capability response, lines 192-210. *)
Definition sendCapabilities : M T unit :=
  h <- fillHeader (enc_header new_MessageEncoder) ;;
  let messageEncoder :=
    with_header (set_entityClass CAPABILITIES_SERVICE)
      (with_header (set_messageClass RESPONSE_SUCCESS)
         (with_header (fun _ => h) new_MessageEncoder)) in
  p <- getBits ;;
  let tlvCell := TLVCell (pci p) (nPrb p) (dlEarfcn p) (ulEarfcn p) in
  len <- writeMessage (add tlvCell messageEncoder) ;;
  cout [PStr "AGENT: sent RESPONSE for CAPABILITIES_SERVICE ("; PNum len;
        PStr (" bytes)" ++ nl)%string].

(** The switch on the entity class of a decoded header, lines 178-218. *)
Definition dispatch (h : CommonHeader) : M T unit :=
  match h_entityClass h with
  | HELLO_SERVICE =>
      cout [PStr ("AGENT: got a REPLY for HELLO_SERVICE (discarded)" ++ nl)%string]
  | CAPABILITIES_SERVICE =>
      cout [PStr ("AGENT: got a REQUEST for CAPABILITIES_SERVICE (discarded)" ++ nl)%string] ;;
      sendCapabilities
  | EntityClass_other _ =>
      cerr [PStr ("AGENT: *** got unexpected message class" ++ nl)%string]
  end.

(** The branch taken when data is available, lines 166-220. *)
Definition handleIncoming : M T unit :=
  messageBuffer <- readMessage ;;
  match messageBuffer with
  | [] => ret tt
  | _ :: _ =>
      cout [PStr ("AGENT: received message" ++ nl)%string; PBuf messageBuffer] ;;
      let messageDecoder := codec_decode codec messageBuffer in
      if isFailure messageDecoder then ret tt
      else dispatch (header messageDecoder)
  end.

(** The HELLO request, lines 232-249. *)
Definition sendHello : M T unit :=
  ms <- delay ;;
  let tlvPeriodicity := TLVPeriodicityMs ms in
  h <- fillHeader (enc_header new_MessageEncoder) ;;
  let messageEncoder :=
    with_header (set_entityClass HELLO_SERVICE)
      (with_header (set_messageClass REQUEST_SET)
         (with_header (fun _ => h) new_MessageEncoder)) in
  len <- writeMessage (add tlvPeriodicity messageEncoder) ;;
  cout [PStr "AGENT: sent REQUEST for HELLO_SERVCE ("; PNum len;
        PStr (" bytes)" ++ nl)%string].

(** The periodic tasks, lines 221-251. *)
Definition periodicTasks : M T unit :=
  cout [PStr "AGENT: waiting for messages... (isConnectionClosed() is "] ;;
  c <- isConnectionClosed ;;
  cout [PBool c; PStr (")" ++ nl)%string] ;;
  closed <- isConnectionClosed ;;
  if negb closed then sendHello else ret tt.

(** The first half of the loop body, lines 140-163: it yields
    [(performPeriodicTasks, dataIsAvailable)]. *)
Definition poll : M T (bool * bool) :=
  c <- isConnectionClosed ;;
  (if c then openSocket else ret tt) ;;
  stillClosed <- isConnectionClosed ;;
  if stillClosed
  then sleep ;; ret (true, false)
  else
    dataIsAvailable <- isDataAvailable ;;
    if negb dataIsAvailable then ret (true, dataIsAvailable)
    else ret (false, dataIsAvailable).

(** One iteration of the [for (;;)] loop, lines 140-256. *)
Definition iteration : M T unit :=
  flags <- poll ;;
  let '(performPeriodicTasks, dataIsAvailable) := flags in
  if dataIsAvailable then handleIncoming
  else if performPeriodicTasks then periodicTasks
  else ret tt.

(** The loop, cut after [n] iterations; an exception ends it earlier. *)
Fixpoint iterations (n : nat) : M T unit :=
  match n with
  | O => ret tt
  | S k => iteration ;; iterations k
  end.

(** [Agent::mainLoop], lines 124-262, observed for [n] iterations. *)
Definition mainLoop (n : nat) : M T unit :=
  p <- getBits ;;
  (fun s => Normal tt
     (mkState (st_agent s)
        (io_setDelay io (delayms p)
           (io_port io (controllerPort p)
              (io_address io (controllerAddress p) (st_io s))))) []) ;;
  try_catch
    (makeMessageBuffer ;;
     makeMessageBuffer ;;
     iterations n)
    (fun what =>
       cerr [PStr "AGENT: *** caught exception in main agent loop: ";
             PStr what; PStr nl]).

End Agent.

Arguments init {T} IPv4Address_of_string all_args.
Arguments start {T} pthread_create.
Arguments fillHeader {T} headerEncoder.
Arguments sendCapabilities {T} io codec.
Arguments dispatch {T} io codec h.
Arguments handleIncoming {T} io codec.
Arguments sendHello {T} io codec.
Arguments periodicTasks {T} io codec.
Arguments poll {T} io.
Arguments iteration {T} io codec.
Arguments iterations {T} io codec n.
Arguments mainLoop {T} io codec n.

(** What [poll] reports in a state: [(performPeriodicTasks, dataIsAvailable)],
    when it returns. *)
Definition flags {T} (io : IO T) (s : State T) : option (bool * bool) :=
  match poll io s with
  | Normal f _ _ => Some f
  | Thrown _ _ _ => None
  end.

(** [P] holds at the start of each of the next [n] iterations (as far as the
    loop gets). *)
Fixpoint everyIteration {T} (io : IO T) (codec : Codec)
  (P : State T -> Prop) (n : nat) (s : State T) : Prop :=
  match n with
  | O => True
  | S k =>
      P s /\
      match iteration io codec s with
      | Normal _ s' _ => everyIteration io codec P k s'
      | Thrown _ _ _ => True
      end
  end.

(** The HELLO request and the capability response the agent sends. *)
Definition helloRequest (seq eid ms : Z) : MessageEncoder :=
  mkEncoder (mkHeader seq eid REQUEST_SET HELLO_SERVICE) [TLVPeriodicityMs ms].

Definition capabilitiesResponse (seq eid : Z) (cell : Z * Z * Z * Z) : MessageEncoder :=
  let '(p, n, dl, ul) := cell in
  mkEncoder (mkHeader seq eid RESPONSE_SUCCESS CAPABILITIES_SERVICE) [TLVCell p n dl ul].

Definition isHeartbeat (m : MessageEncoder) : bool :=
  isRequest (h_messageClass (enc_header m)) && isHello (h_entityClass (enc_header m)).

(** Prepending the events of what ran before. *)
Definition after {T A} (evs : list Event) (o : Outcome T A) : Outcome T A :=
  match o with
  | Normal a s e => Normal a s (evs ++ e)
  | Thrown w s e => Thrown w s (evs ++ e)
  end.

(** ** A scripted transport and a toy codec, to run the agent on *)

Module Sim.

Record t := mk {
  closed      : bool;          (* no connection at the moment *)
  connectable : bool;          (* the controller accepts connections *)
  inbox       : list Buffer;   (* messages waiting to be read *)
  flood       : option Buffer; (* sent over and over once [inbox] is empty *)
  delay_ms    : Z;
  sent        : list Buffer
}.

Definition io : IO t := {|
  io_address := fun _ x => x;
  io_port := fun _ x => x;
  io_setDelay := fun d x =>
    mk (closed x) (connectable x) (inbox x) (flood x) d (sent x);
  io_makeMessageBuffer := fun x => IOok tt x;
  io_isConnectionClosed := fun x => IOok (closed x) x;
  io_openSocket := fun x =>
    IOok tt (mk (negb (connectable x)) (connectable x) (inbox x) (flood x)
                (delay_ms x) (sent x));
  io_sleep := fun x => IOok tt x;
  io_isDataAvailable := fun x =>
    IOok (match inbox x, flood x with [], None => false | _, _ => true end) x;
  io_readMessage := fun x =>
    match inbox x, flood x with
    | b :: r, _ =>
        IOok b (mk (closed x) (connectable x) r (flood x) (delay_ms x) (sent x))
    | [], Some b => IOok b x
    | [], None => IOok [] x
    end;
  io_writeMessage := fun b x =>
    IOok (Z.of_nat (List.length b))
         (mk (closed x) (connectable x) (inbox x) (flood x) (delay_ms x)
             (sent x ++ [b]));
  io_delay := fun x => IOok (delay_ms x) x
|}.

Definition classByte (c : MessageClass) : byte :=
  match c with
  | REQUEST_SET => x01
  | RESPONSE_SUCCESS => x02
  | RESPONSE_FAILURE => x03
  | MessageClass_other _ => x00
  end.
Definition entityByte (e : EntityClass) : byte :=
  match e with
  | HELLO_SERVICE => x01
  | CAPABILITIES_SERVICE => x02
  | EntityClass_other _ => x00
  end.
Definition byteClass (b : byte) : MessageClass :=
  match b with
  | x01 => REQUEST_SET
  | x02 => RESPONSE_SUCCESS
  | x03 => RESPONSE_FAILURE
  | _ => MessageClass_other 0
  end.
Definition byteEntity (b : byte) : EntityClass :=
  match b with
  | x01 => HELLO_SERVICE
  | x02 => CAPABILITIES_SERVICE
  | _ => EntityClass_other 0
  end.

(** Two bytes on the wire: message class, entity class. *)
Definition codec : Codec := {|
  codec_blank := mkHeader 0 0 (MessageClass_other 0) (EntityClass_other 0);
  codec_data := fun m =>
    [classByte (h_messageClass (enc_header m)); entityByte (h_entityClass (enc_header m))];
  codec_decode := fun b =>
    match b with
    | [c; e] => mkDecoder false (mkHeader 0 0 (byteClass c) (byteEntity e))
    | _ => mkDecoder true (mkHeader 0 0 (MessageClass_other 0) (EntityClass_other 0))
    end
|}.

Definition parse (str : string) : IPv4Address + string :=
  match str with
  | EmptyString => inr "invalid address"%string
  | _ => inl (mkIPv4 2130706433)
  end.


(** The configuration of the scenarios of the spec. *)
Definition args : all_args_t :=
  mkArgs "127.0.0.1" 2210 2000 5 1850 19850 25 17.

Definition bits : PrivateBits :=
  mkBits None (mkIPv4 2130706433) 2210 2000 5 1850 19850 25 17 1.

Definition blank : PrivateBits := mkBits None (mkIPv4 0) 0 0 0 0 0 0 0 0.

Definition idle : t := mk false true [] None 2000 [].
Definition down : t := mk true false [] None 2000 [].

End Sim.

(** The cell description held by the agent. *)
Definition cellOf (p : PrivateBits) : Z * Z * Z * Z :=
  (pci p, nPrb p, dlEarfcn p, ulEarfcn p).

(** Every field but the sequence counter agrees. *)
Definition sameConfiguration (a b : PrivateBits) : Prop :=
  agentThread a = agentThread b /\
  controllerAddress a = controllerAddress b /\
  controllerPort a = controllerPort b /\
  delayms a = delayms b /\
  pci a = pci b /\
  dlEarfcn a = dlEarfcn b /\
  ulEarfcn a = ulEarfcn b /\
  nPrb a = nPrb b /\
  enbId a = enbId b.

(** The transport state a call leaves behind. *)
Definition stateAfter {T A} (r : IOResult T A) : T :=
  match r with IOok _ t => t | IOexn _ t => t end.

(** The notice printed once a non-empty buffer has been read. *)
Definition receivedNotice (b : Buffer) : list Event :=
  match b with
  | [] => []
  | _ :: _ => [Cout [PStr ("AGENT: received message" ++ nl)%string; PBuf b]]
  end.

(** What one iteration does while the connection stays closed. *)
Definition closedTick : list Event :=
  [CallIsConnectionClosed; CallOpenSocket; CallIsConnectionClosed; CallSleep;
   Cout [PStr "AGENT: waiting for messages... (isConnectionClosed() is "];
   CallIsConnectionClosed;
   Cout [PBool true; PStr (")" ++ nl)%string];
   CallIsConnectionClosed].

(** A transport that reports the connection closed on every check: [Closed]
    holds of its states from now on, whatever the agent calls. *)
Definition staysClosed {T} (io : IO T) (Closed : T -> Prop) : Prop :=
  forall t, Closed t ->
    (exists t', io_isConnectionClosed io t = IOok true t' /\ Closed t') /\
    (exists t', io_openSocket io t = IOok tt t' /\ Closed t') /\
    (exists t', io_sleep io t = IOok tt t' /\ Closed t').

(** The messages are numbered from [start] on, modulo 2^32, and all carry
    the element identifier [eid]. *)
Definition numbered (start eid : Z) (ms : list MessageEncoder) : Prop :=
  forall i m, nth_error ms i = Some m ->
    h_sequence (enc_header m) = u32 (start + Z.of_nat i) /\
    h_elementId (enc_header m) = eid.

(** The pairs the dispatch table of the spec leaves to its default case. *)
Definition specUnexpected (h : CommonHeader) : bool :=
  negb (isResponse (h_messageClass h) && isHello (h_entityClass h)) &&
  negb (isRequest (h_messageClass h) && isCapabilities (h_entityClass h)).

(** The effect of a piece of the loop on the sequence counter: either it
    writes nothing and leaves the agent alone, or it writes one message
    stamped with the current counter and the element identifier, and bumps
    the counter. *)
Definition stampsAtMostOnce {T A} (s : State T) (o : Outcome T A) : Prop :=
  (written (events o) = [] /\ st_agent (final o) = st_agent s) \/
  (exists m,
     written (events o) = [m] /\
     h_sequence (enc_header m) = sequence (st_agent s) /\
     h_elementId (enc_header m) = u64 (enbId (st_agent s)) /\
     st_agent (final o) = with_sequence (u32 (sequence (st_agent s) + 1)) (st_agent s)).


(** The transport reports inbound data at the start of an iteration. *)
Definition dataReported {T} (io : IO T) (s : State T) : Prop :=
  exists performPeriodicTasks, flags io s = Some (performPeriodicTasks, true).

(** ** Further vocabulary for whole runs *)

(** The transport state [mainLoop] starts from, lines 127-130: the three
    setters applied to the fresh [IO]. *)
Definition configured {T} (io : IO T) (s : State T) : State T :=
  mkState (st_agent s)
    (io_setDelay io (delayms (st_agent s))
       (io_port io (controllerPort (st_agent s))
          (io_address io (controllerAddress (st_agent s)) (st_io s)))).

(** The body of the [try] block of [mainLoop], lines 133-257. *)
Definition guarded {T} (io : IO T) (codec : Codec) (n : nat) : M T unit :=
  makeMessageBuffer io ;; makeMessageBuffer io ;; iterations io codec n.

(** What the [catch] of [mainLoop] prints, line 260. *)
Definition caughtNotice (what : string) : Event :=
  Cerr [PStr "AGENT: *** caught exception in main agent loop: "; PStr what; PStr nl].

Definition isDataAvailableCall (e : Event) : bool :=
  match e with CallIsDataAvailable => true | _ => false end.
Definition isConnectionClosedCall (e : Event) : bool :=
  match e with CallIsConnectionClosed => true | _ => false end.

(** A call of [sleep] or of [isDataAvailable]. *)
Definition isSleepOrPoll (e : Event) : bool := isSleep e || isDataAvailableCall e.

(** The two shapes of message the agent builds, for a given element
    identifier and cell description. *)
Definition agentMessage (eid : Z) (cell : Z * Z * Z * Z) (m : MessageEncoder) : Prop :=
  exists seq,
    (exists ms, m = helloRequest seq eid ms) \/ m = capabilitiesResponse seq eid cell.

(** The HELLO requests of [n] consecutive idle ticks. *)
Fixpoint heartbeats (seq eid ms : Z) (n : nat) : list MessageEncoder :=
  match n with
  | O => []
  | S k => helloRequest seq eid ms :: heartbeats (u32 (seq + 1)) eid ms k
  end.

(** [Inv] survives every call the loop makes on the transport, whether the
    call returns or throws. *)
Definition preserved {T} (io : IO T) (Inv : T -> Prop) : Prop :=
  forall t, Inv t ->
    Inv (stateAfter (io_makeMessageBuffer io t)) /\
    Inv (stateAfter (io_isConnectionClosed io t)) /\
    Inv (stateAfter (io_openSocket io t)) /\
    Inv (stateAfter (io_sleep io t)) /\
    Inv (stateAfter (io_isDataAvailable io t)) /\
    Inv (stateAfter (io_readMessage io t)) /\
    (forall b, Inv (stateAfter (io_writeMessage io b t))) /\
    Inv (stateAfter (io_delay io t)).

(** In the states [Has] the getter [delay()] yields [d]. *)
Definition delayReads {T} (io : IO T) (d : Z) (Has : T -> Prop) : Prop :=
  forall t ms t', Has t -> io_delay io t = IOok ms t' -> ms = d.

(** A connection that stays open and silent: every status check reports it
    open, no data ever arrives, [delay()] yields [d] and writes succeed. *)
Definition staysIdle {T} (io : IO T) (d : Z) (Idle : T -> Prop) : Prop :=
  forall t, Idle t ->
    (exists t', io_isConnectionClosed io t = IOok false t' /\ Idle t') /\
    (exists t', io_isDataAvailable io t = IOok false t' /\ Idle t') /\
    (exists t', io_delay io t = IOok d t' /\ Idle t') /\
    (forall b, exists len t', io_writeMessage io b t = IOok len t' /\ Idle t').

(** The arguments [init] copies fit the fields they are copied to. *)
Definition argsFit (a : all_args_t) : Prop :=
  0 <= empoweragent_controller_port a < 2^16 /\
  0 <= empoweragent_delayms a < 2^32 /\
  0 <= enb_pci a < 2^16 /\
  0 <= enb_dl_earfcn a < 2^32 /\
  0 <= enb_ul_earfcn a < 2^32 /\
  0 <= enb_n_prb a < 2^8 /\
  0 <= stack_s1ap_enb_id a < 2^32.

(** The fields of the private bits are within their C++ types. *)
Definition bitsInRange (p : PrivateBits) : Prop :=
  0 <= controllerPort p < 2^16 /\
  0 <= delayms p < 2^32 /\
  0 <= pci p < 2^16 /\
  0 <= dlEarfcn p < 2^32 /\
  0 <= ulEarfcn p < 2^32 /\
  0 <= nPrb p < 2^8 /\
  0 <= enbId p < 2^32 /\
  0 <= sequence p < 2^32.

(** A specification triple for pieces of the loop: from a state in [I] the
    piece ends in [I], every event it records is in [P], and a returned
    value is in [R]. *)
Definition triple {T A} (I : State T -> Prop) (P : Event -> Prop) (R : A -> Prop)
  (m : M T A) : Prop :=
  forall s, I s ->
    I (final (m s)) /\ Forall P (events (m s)) /\
    (forall a s' e, m s = Normal a s' e -> R a).

(** A variant of the scripted transport that cannot allocate message buffers. *)
Definition noMemoryIO : IO Sim.t :=
  mkIO Sim.t (io_address Sim.io) (io_port Sim.io) (io_setDelay Sim.io)
    (fun x => IOexn (StdException "std::bad_alloc") x)
    (io_isConnectionClosed Sim.io) (io_openSocket Sim.io) (io_sleep Sim.io)
    (io_isDataAvailable Sim.io) (io_readMessage Sim.io) (io_writeMessage Sim.io)
    (io_delay Sim.io).

(** A property of the transport, read off a state of the agent. *)
Definition onTransport {T} (Has : T -> Prop) (s : State T) : Prop := Has (st_io s).

(** A recorded event is not a HELLO request announcing another period than [d]. *)
Definition announces (d : Z) (e : Event) : Prop :=
  match e with
  | CallWriteMessage m => isHeartbeat m = true -> enc_tlvs m = [TLVPeriodicityMs d]
  | _ => True
  end.

(** In the states [Closed] a status check that returns reports the
    connection closed. *)
Definition reportsClosed {T} (io : IO T) (Closed : T -> Prop) : Prop :=
  forall t c t', Closed t -> io_isConnectionClosed io t = IOok c t' -> c = true.

(** The event is no traffic: neither a poll for data, nor a read, nor a write. *)
Definition noTraffic (e : Event) : Prop :=
  isDataAvailableCall e = false /\ isReadMessage e = false /\ isWriteMessage e = false.

Example init_scenario :
  init Sim.parse Sim.args (mkState Sim.blank Sim.idle)
  = Normal false (mkState Sim.bits Sim.idle) [].
Proof. reflexivity. Qed.

(** Spec scenario: three idle ticks while connected give three HELLO requests
    numbered N, N+1, N+2 with payload 2000. *)
Example three_idle_ticks :
  written (events (iterations Sim.io Sim.codec 3 (mkState Sim.bits Sim.idle)))
  = [helloRequest 1 17 2000; helloRequest 2 17 2000; helloRequest 3 17 2000].
Proof. reflexivity. Qed.

(** Spec scenario: a capability request is answered once, then the idle
    cadence resumes with the next sequence numbers. *)
Example capability_request_then_idle :
  written (events (iterations Sim.io Sim.codec 3
    (mkState Sim.bits (Sim.mk false true [[x01; x02]] None 2000 []))))
  = [capabilitiesResponse 1 17 (5, 25, 1850, 19850);
     helloRequest 2 17 2000; helloRequest 3 17 2000].
Proof. reflexivity. Qed.

(** ** Running the monad *)

Section Proofs.

Context {T : Type} (io : IO T) (codec : Codec).

(** The address parser [init] is run against, and the thread primitive of
    [start]. *)
Variable IPv4Address_of_string : string -> IPv4Address + string.
Variable pthread_create : T -> Z * Z * T.

Lemma written_app a b : written (a ++ b) = written a ++ written b.
Proof.
  induction a as [|e a IH]; [reflexivity|].
  destruct e; cbn; rewrite ?IH; reflexivity.
Qed.

Lemma count_app f a b : count f (a ++ b) = (count f a + count f b)%nat.
Proof. unfold count. rewrite filter_app, length_app. reflexivity. Qed.

Lemma events_after {A} evs (o : Outcome T A) : events (after evs o) = evs ++ events o.
Proof. destruct o; reflexivity. Qed.

Lemma final_after {A} evs (o : Outcome T A) : final (after evs o) = final o.
Proof. destruct o; reflexivity. Qed.

Lemma bind_Normal {A B} (m : M T A) (f : A -> M T B) s a s1 e1 :
  m s = Normal a s1 e1 -> bind m f s = after e1 (f a s1).
Proof. intros H. unfold bind. rewrite H. destruct (f a s1); reflexivity. Qed.

Lemma bind_Thrown {A B} (m : M T A) (f : A -> M T B) s w s1 e1 :
  m s = Thrown w s1 e1 -> bind m f s = Thrown w s1 e1.
Proof. intros H. unfold bind. rewrite H. reflexivity. Qed.

Lemma call_ok {A} e (op : T -> IOResult T A) s a t :
  op (st_io s) = IOok a t -> call e op s = Normal a (mkState (st_agent s) t) [e].
Proof. intros H. unfold call. rewrite H. reflexivity. Qed.

Lemma iterations_S n s :
  iterations io codec (S n) s
  = match iteration io codec s with
    | Normal _ s1 e1 => after e1 (iterations io codec n s1)
    | Thrown w s1 e1 => Thrown w s1 e1
    end.
Proof.
  cbn [iterations]. destruct (iteration io codec s) as [[] s1 e1|w s1 e1] eqn:E.
  - exact (bind_Normal _ (fun _ => iterations io codec n) _ _ _ _ E).
  - exact (bind_Thrown _ (fun _ => iterations io codec n) _ _ _ _ E).
Qed.

(** Case analysis on every transport call and test in the goal. *)
Ltac io_cases :=
  repeat match goal with
    | |- context [match ?op io ?t with IOok _ _ => _ | IOexn _ _ => _ end] =>
        let E := fresh "E" in destruct (op io t) as [? ?|? ?] eqn:E; cbn
    | |- context [match io_writeMessage io ?b ?t with IOok _ _ => _ | IOexn _ _ => _ end] =>
        let E := fresh "E" in destruct (io_writeMessage io b t) as [? ?|? ?] eqn:E; cbn
    | |- context [if negb ?b then _ else _] => is_var b; destruct b; cbn
    | |- context [if ?b then _ else _] => is_var b; destruct b; cbn
    end.

Ltac run_poll :=
  unfold poll, bind, isConnectionClosed, openSocket, sleep, isDataAvailable, call, ret;
  cbn.

(** ** [fillHeader] and the two messages *)

Lemma fillHeader_runs h (s : State T) :
  fillHeader h s
  = Normal (mkHeader (sequence (st_agent s)) (u64 (enbId (st_agent s)))
              (h_messageClass h) (h_entityClass h))
      (mkState (with_sequence (u32 (sequence (st_agent s) + 1)) (st_agent s)) (st_io s))
      [].
Proof. reflexivity. Qed.

Lemma sendCapabilities_runs (s : State T) :
  let m := capabilitiesResponse (sequence (st_agent s)) (u64 (enbId (st_agent s)))
             (cellOf (st_agent s)) in
  let a := with_sequence (u32 (sequence (st_agent s) + 1)) (st_agent s) in
  sendCapabilities io codec s
  = match io_writeMessage io (codec_data codec m) (st_io s) with
    | IOok len t =>
        Normal tt (mkState a t)
          [CallWriteMessage m;
           Cout [PStr "AGENT: sent RESPONSE for CAPABILITIES_SERVICE ("; PNum len;
                 PStr (" bytes)" ++ nl)%string]]
    | IOexn w t => Thrown w (mkState a t) [CallWriteMessage m]
    end.
Proof.
  cbn zeta. unfold sendCapabilities, bind, writeMessage, call, getBits, cout, emit, cellOf.
  rewrite fillHeader_runs. cbn.
  destruct (io_writeMessage io _ (st_io s)); reflexivity.
Qed.

Lemma sendHello_runs (s : State T) ms t1 :
  io_delay io (st_io s) = IOok ms t1 ->
  let m := helloRequest (sequence (st_agent s)) (u64 (enbId (st_agent s))) ms in
  let a := with_sequence (u32 (sequence (st_agent s) + 1)) (st_agent s) in
  sendHello io codec s
  = match io_writeMessage io (codec_data codec m) t1 with
    | IOok len t =>
        Normal tt (mkState a t)
          [CallDelay; CallWriteMessage m;
           Cout [PStr "AGENT: sent REQUEST for HELLO_SERVCE ("; PNum len;
                 PStr (" bytes)" ++ nl)%string]]
    | IOexn w t => Thrown w (mkState a t) [CallDelay; CallWriteMessage m]
    end.
Proof.
  intros H. cbn zeta.
  unfold sendHello, bind, delay, writeMessage, call, cout, emit.
  rewrite H, fillHeader_runs. cbn.
  destruct (io_writeMessage io _ t1); reflexivity.
Qed.

(** ** [poll] *)

Lemma poll_quiet s :
  written (events (poll io s)) = [] /\ st_agent (final (poll io s)) = st_agent s.
Proof. run_poll. io_cases; auto. Qed.

Lemma poll_returns s p d s1 e1 :
  poll io s = Normal (p, d) s1 e1 ->
  p = negb d /\ st_agent s1 = st_agent s /\ written e1 = [] /\ count isCerr e1 = 0%nat.
Proof.
  revert s1 e1. run_poll. io_cases; intros s1 e1 H; inversion H; subst; repeat split; reflexivity.
Qed.

(** ** [dispatch] *)

Lemma dispatch_capabilities h s :
  h_entityClass h = CAPABILITIES_SERVICE ->
  dispatch io codec h s
  = after [Cout [PStr ("AGENT: got a REQUEST for CAPABILITIES_SERVICE (discarded)"
                       ++ nl)%string]]
      (sendCapabilities io codec s).
Proof.
  intros H. unfold dispatch. rewrite H.
  unfold bind at 1. unfold cout at 1, emit at 1.
  destruct (sendCapabilities io codec s); reflexivity.
Qed.

Lemma dispatch_written h s :
  written (events (dispatch io codec h s))
  = if isCapabilities (h_entityClass h)
    then [capabilitiesResponse (sequence (st_agent s)) (u64 (enbId (st_agent s)))
            (cellOf (st_agent s))]
    else [].
Proof.
  destruct (h_entityClass h) eqn:E.
  - unfold dispatch. rewrite E. reflexivity.
  - rewrite dispatch_capabilities by exact E.
    rewrite events_after, sendCapabilities_runs. cbn zeta.
    destruct (io_writeMessage io _ (st_io s)); reflexivity.
  - unfold dispatch. rewrite E. reflexivity.
Qed.

(** C2: a capability request is answered by exactly one message, a
    RESPONSE_SUCCESS for CAPABILITIES_SERVICE whose only TLV is the cell
    TLV filled from the agent's pci, nPrb, dlEarfcn and ulEarfcn. *)
Theorem capability_request_answered h s :
  h_entityClass h = CAPABILITIES_SERVICE ->
  isRequest (h_messageClass h) = true ->
  exists m,
    written (events (dispatch io codec h s)) = [m] /\
    h_messageClass (enc_header m) = RESPONSE_SUCCESS /\
    h_entityClass (enc_header m) = h_entityClass h /\
    enc_tlvs m = [TLVCell (pci (st_agent s)) (nPrb (st_agent s))
                          (dlEarfcn (st_agent s)) (ulEarfcn (st_agent s))].
Proof.
  intros He _. rewrite dispatch_written, He. cbn.
  eexists. split; [reflexivity|]. cbn. auto.
Qed.

(** C4, as amended: dispatch is keyed by the entity class alone.  A message
    whose pair is neither (a response class, HELLO_SERVICE) nor (any class,
    CAPABILITIES_SERVICE) gets no reply and changes nothing in the agent or
    the transport; it is logged, as unexpected on the error stream, except
    that a HELLO_SERVICE message is logged like a keep-alive reply on
    standard output. *)
Theorem unanswered_unless_capabilities h s :
  isResponse (h_messageClass h) && isHello (h_entityClass h) = false ->
  isCapabilities (h_entityClass h) = false ->
  written (events (dispatch io codec h s)) = [] /\
  final (dispatch io codec h s) = s /\
  dispatch io codec h s
  = Normal tt s
      [if isHello (h_entityClass h)
       then Cout [PStr ("AGENT: got a REPLY for HELLO_SERVICE (discarded)" ++ nl)%string]
       else Cerr [PStr ("AGENT: *** got unexpected message class" ++ nl)%string]].
Proof.
  intros _ H. unfold dispatch.
  destruct (h_entityClass h); try discriminate; repeat split.
Qed.

(** C9: dispatch hands at most one message to the transport and calls
    nothing else on it; of the agent's fields only the sequence counter can
    change, and it does so exactly when a message is written. *)
Theorem dispatch_frame h s :
  (List.length (written (events (dispatch io codec h s))) <= 1)%nat /\
  filter isIOCall (events (dispatch io codec h s))
    = map CallWriteMessage (written (events (dispatch io codec h s))) /\
  sameConfiguration (st_agent (final (dispatch io codec h s))) (st_agent s) /\
  match written (events (dispatch io codec h s)) with
  | [] => final (dispatch io codec h s) = s
  | m :: _ =>
      sequence (st_agent (final (dispatch io codec h s)))
        = u32 (sequence (st_agent s) + 1) /\
      st_io (final (dispatch io codec h s))
        = stateAfter (io_writeMessage io (codec_data codec m) (st_io s))
  end.
Proof.
  destruct (h_entityClass h) eqn:E.
  - unfold dispatch. rewrite E. cbn. unfold sameConfiguration. auto 12.
  - rewrite dispatch_capabilities by exact E.
    rewrite events_after, final_after, sendCapabilities_runs. cbn zeta.
    destruct (io_writeMessage io _ (st_io s)) eqn:W; cbn in W |- *;
      rewrite W; unfold sameConfiguration; cbn; repeat split; auto.
  - unfold dispatch. rewrite E. cbn. unfold sameConfiguration. auto 12.
Qed.

(** ** The two branches of the loop body *)

Lemma handleIncoming_discards s buf t :
  io_readMessage io (st_io s) = IOok buf t ->
  buf = [] \/ isFailure (codec_decode codec buf) = true ->
  handleIncoming io codec s
  = Normal tt (mkState (st_agent s) t) (CallReadMessage :: receivedNotice buf).
Proof.
  intros R H. unfold handleIncoming.
  rewrite (bind_Normal _ _ _ _ _ _ (call_ok CallReadMessage _ _ _ _ R)).
  destruct buf as [|b r]; [reflexivity|].
  destruct H as [H|H]; [discriminate|].
  unfold bind, cout, emit. rewrite H. reflexivity.
Qed.

Lemma handleIncoming_dispatches s buf t :
  io_readMessage io (st_io s) = IOok buf t ->
  buf <> [] -> isFailure (codec_decode codec buf) = false ->
  handleIncoming io codec s
  = after (CallReadMessage :: receivedNotice buf)
      (dispatch io codec (header (codec_decode codec buf)) (mkState (st_agent s) t)).
Proof.
  intros R N H. unfold handleIncoming.
  rewrite (bind_Normal _ _ _ _ _ _ (call_ok CallReadMessage _ _ _ _ R)).
  destruct buf as [|b r]; [congruence|].
  unfold bind, cout, emit. rewrite H. cbn.
  destruct (dispatch io codec _ _); reflexivity.
Qed.

Lemma sendCapabilities_stamps s : stampsAtMostOnce s (sendCapabilities io codec s).
Proof.
  right. rewrite sendCapabilities_runs. cbn zeta.
  eexists. destruct (io_writeMessage io _ (st_io s)); cbn; repeat split; reflexivity.
Qed.

Lemma dispatch_stamps h s : stampsAtMostOnce s (dispatch io codec h s).
Proof.
  destruct (h_entityClass h) eqn:E.
  - left. unfold dispatch. rewrite E. split; reflexivity.
  - rewrite dispatch_capabilities by exact E.
    destruct (sendCapabilities_stamps s) as [[W A]|(m & W & A)];
      [left|right; exists m]; rewrite events_after, final_after; cbn; auto.
  - left. unfold dispatch. rewrite E. split; reflexivity.
Qed.

Lemma handleIncoming_stamps s : stampsAtMostOnce s (handleIncoming io codec s).
Proof.
  destruct (io_readMessage io (st_io s)) as [buf t|w t] eqn:R.
  - destruct buf as [|b r] eqn:B.
    + left. rewrite (handleIncoming_discards _ _ _ R) by auto. split; reflexivity.
    + destruct (isFailure (codec_decode codec (b :: r))) eqn:F.
      * left. rewrite (handleIncoming_discards _ _ _ R) by auto. split; reflexivity.
      * rewrite (handleIncoming_dispatches _ _ _ R) by (auto; discriminate).
        destruct (dispatch_stamps (header (codec_decode codec (b :: r)))
                    (mkState (st_agent s) t)) as [[W A]|(m & W & A)];
          [left|right; exists m]; rewrite events_after, final_after; cbn; auto.
  - left. unfold handleIncoming, bind, readMessage, call. rewrite R. split; reflexivity.
Qed.

Lemma handleIncoming_no_heartbeat s :
  Forall (fun m => isHeartbeat m = false) (written (events (handleIncoming io codec s))).
Proof.
  destruct (io_readMessage io (st_io s)) as [buf t|w t] eqn:R.
  - destruct buf as [|b r] eqn:B.
    + rewrite (handleIncoming_discards _ _ _ R) by auto. constructor.
    + destruct (isFailure (codec_decode codec (b :: r))) eqn:F.
      * rewrite (handleIncoming_discards _ _ _ R) by auto. constructor.
      * rewrite (handleIncoming_dispatches _ _ _ R) by (auto; discriminate).
        rewrite events_after. cbn [written receivedNotice app].
        rewrite dispatch_written.
        destruct (isCapabilities _); repeat constructor.
  - unfold handleIncoming, bind, readMessage, call. rewrite R. constructor.
Qed.

Lemma periodicTasks_open s c t1 t2 :
  io_isConnectionClosed io (st_io s) = IOok c t1 ->
  io_isConnectionClosed io t1 = IOok false t2 ->
  periodicTasks io codec s
  = after [Cout [PStr "AGENT: waiting for messages... (isConnectionClosed() is "];
           CallIsConnectionClosed;
           Cout [PBool c; PStr (")" ++ nl)%string];
           CallIsConnectionClosed]
      (sendHello io codec (mkState (st_agent s) t2)).
Proof.
  intros H1 H2.
  unfold periodicTasks, bind, isConnectionClosed, call, cout, emit.
  cbn. rewrite H1. cbn. rewrite H2. cbn.
  destruct (sendHello io codec _); reflexivity.
Qed.

Lemma periodicTasks_closed s c t1 t2 :
  io_isConnectionClosed io (st_io s) = IOok c t1 ->
  io_isConnectionClosed io t1 = IOok true t2 ->
  periodicTasks io codec s
  = Normal tt (mkState (st_agent s) t2)
      [Cout [PStr "AGENT: waiting for messages... (isConnectionClosed() is "];
       CallIsConnectionClosed;
       Cout [PBool c; PStr (")" ++ nl)%string];
       CallIsConnectionClosed].
Proof.
  intros H1 H2.
  unfold periodicTasks, bind, isConnectionClosed, call, cout, emit.
  cbn. rewrite H1. cbn. rewrite H2. reflexivity.
Qed.

Lemma sendHello_stamps s : stampsAtMostOnce s (sendHello io codec s).
Proof.
  destruct (io_delay io (st_io s)) as [ms t|w t] eqn:D.
  - right. rewrite (sendHello_runs _ _ _ D). cbn zeta.
    eexists. destruct (io_writeMessage io _ t); cbn; repeat split; reflexivity.
  - left. unfold sendHello, bind, delay, call. rewrite D. split; reflexivity.
Qed.

Lemma periodicTasks_stamps s : stampsAtMostOnce s (periodicTasks io codec s).
Proof.
  destruct (io_isConnectionClosed io (st_io s)) as [c t1|w t1] eqn:H1.
  - destruct (io_isConnectionClosed io t1) as [[|] t2|w t2] eqn:H2.
    + left. rewrite (periodicTasks_closed _ _ _ _ H1 H2). split; reflexivity.
    + rewrite (periodicTasks_open _ _ _ _ H1 H2).
      destruct (sendHello_stamps (mkState (st_agent s) t2)) as [[W A]|(m & W & A)];
        [left|right; exists m]; rewrite events_after, final_after; cbn; auto.
    + left. unfold periodicTasks, bind, isConnectionClosed, call, cout, emit.
      cbn. rewrite H1. cbn. rewrite H2. split; reflexivity.
  - left. unfold periodicTasks, bind, isConnectionClosed, call, cout, emit.
    cbn. rewrite H1. split; reflexivity.
Qed.

(** ** One iteration *)

Lemma iteration_after_poll s p d s1 e1 :
  poll io s = Normal (p, d) s1 e1 ->
  iteration io codec s
  = after e1 (if d then handleIncoming io codec s1 else periodicTasks io codec s1).
Proof.
  intros P. destruct (poll_returns _ _ _ _ _ P) as (-> & _).
  unfold iteration. rewrite (bind_Normal _ _ _ _ _ _ P).
  destruct d; reflexivity.
Qed.

Lemma stamps_after {A} s s1 e1 (o : Outcome T A) :
  written e1 = [] -> st_agent s1 = st_agent s ->
  stampsAtMostOnce s1 o -> stampsAtMostOnce s (after e1 o).
Proof.
  intros W E [[W1 A1]|(m & W1 & A1)]; [left|right; exists m];
    rewrite events_after, final_after, written_app, W, <- E; cbn; auto.
Qed.

Lemma iteration_stamps s : stampsAtMostOnce s (iteration io codec s).
Proof.
  destruct (poll io s) as [[p d] s1 e1|w s1 e1] eqn:P.
  - rewrite (iteration_after_poll _ _ _ _ _ P).
    destruct (poll_returns _ _ _ _ _ P) as (_ & A & W & _).
    apply (stamps_after s s1); auto.
    destruct d; [apply handleIncoming_stamps | apply periodicTasks_stamps].
  - left. pose proof (poll_quiet s) as Q. rewrite P in Q.
    unfold iteration. rewrite (bind_Thrown _ _ _ _ _ _ P). exact Q.
Qed.

Lemma poll_closed s t1 t2 t3 t4 :
  io_isConnectionClosed io (st_io s) = IOok true t1 ->
  io_openSocket io t1 = IOok tt t2 ->
  io_isConnectionClosed io t2 = IOok true t3 ->
  io_sleep io t3 = IOok tt t4 ->
  poll io s
  = Normal (true, false) (mkState (st_agent s) t4)
      [CallIsConnectionClosed; CallOpenSocket; CallIsConnectionClosed; CallSleep].
Proof.
  intros H1 H2 H3 H4. run_poll. rewrite H1. cbn. rewrite H2. cbn.
  rewrite H3. cbn. rewrite H4. reflexivity.
Qed.

Lemma poll_reopened s t1 t2 t3 :
  io_isConnectionClosed io (st_io s) = IOok true t1 ->
  io_openSocket io t1 = IOok tt t2 ->
  io_isConnectionClosed io t2 = IOok false t3 ->
  poll io s
  = after [CallIsConnectionClosed; CallOpenSocket; CallIsConnectionClosed]
      (match io_isDataAvailable io t3 with
       | IOok d t4 => Normal (negb d, d) (mkState (st_agent s) t4) [CallIsDataAvailable]
       | IOexn w t4 => Thrown w (mkState (st_agent s) t4) [CallIsDataAvailable]
       end).
Proof.
  intros H1 H2 H3. run_poll. rewrite H1. cbn. rewrite H2. cbn.
  rewrite H3. cbn. destruct (io_isDataAvailable io t3) as [[|] ?|? ?]; reflexivity.
Qed.

(** C3: on an idle tick (no inbound data) with the connection reported open
    at the send gate, the iteration writes exactly one message, a
    REQUEST_SET for HELLO_SERVICE whose only TLV carries what [io.delay()]
    returns at that moment; nothing about earlier sends is consulted. *)
Theorem heartbeat_on_connected_idle_tick s p s1 e1 c t2 t3 ms t4 :
  poll io s = Normal (p, false) s1 e1 ->
  io_isConnectionClosed io (st_io s1) = IOok c t2 ->
  io_isConnectionClosed io t2 = IOok false t3 ->
  io_delay io t3 = IOok ms t4 ->
  exists m,
    written (events (iteration io codec s)) = [m] /\
    h_messageClass (enc_header m) = REQUEST_SET /\
    h_entityClass (enc_header m) = HELLO_SERVICE /\
    enc_tlvs m = [TLVPeriodicityMs ms] /\
    m = helloRequest (sequence (st_agent s)) (u64 (enbId (st_agent s))) ms.
Proof.
  intros P H1 H2 D.
  destruct (poll_returns _ _ _ _ _ P) as (_ & A & W & _).
  rewrite (iteration_after_poll _ _ _ _ _ P).
  rewrite (periodicTasks_open _ _ _ _ H1 H2).
  rewrite !events_after, !written_app, W.
  assert (D' : io_delay io (st_io (mkState (st_agent s1) t3)) = IOok ms t4) by exact D.
  rewrite (sendHello_runs _ _ _ D'). cbn zeta. cbn [st_agent st_io].
  rewrite A. eexists. split.
  - destruct (io_writeMessage io _ t4); reflexivity.
  - repeat split; reflexivity.
Qed.

(** C5, as amended: when the first check reports the connection closed the
    agent calls openSocket and tests again; if the connection is still
    closed it sleeps and marks the iteration periodic, and if it is now
    open it does not sleep but polls for data, the iteration being
    periodic exactly when no data is available. *)
Theorem reconnect_then_retest s t1 t2 c t3 :
  io_isConnectionClosed io (st_io s) = IOok true t1 ->
  io_openSocket io t1 = IOok tt t2 ->
  io_isConnectionClosed io t2 = IOok c t3 ->
  (c = true ->
   forall t4, io_sleep io t3 = IOok tt t4 ->
     poll io s
     = Normal (true, false) (mkState (st_agent s) t4)
         [CallIsConnectionClosed; CallOpenSocket; CallIsConnectionClosed; CallSleep]) /\
  (c = false ->
   count isSleep (events (poll io s)) = 0%nat /\
   forall d t4, io_isDataAvailable io t3 = IOok d t4 ->
     poll io s
     = Normal (negb d, d) (mkState (st_agent s) t4)
         [CallIsConnectionClosed; CallOpenSocket; CallIsConnectionClosed;
          CallIsDataAvailable]).
Proof.
  intros H1 H2 H3. split; intros ->.
  - intros t4 H4. apply (poll_closed _ _ _ _ _ H1 H2 H3 H4).
  - rewrite (poll_reopened _ _ _ _ H1 H2 H3). split.
    + destruct (io_isDataAvailable io t3); reflexivity.
    + intros d t4 H4. rewrite H4. reflexivity.
Qed.

(** C6: when the read yields an empty buffer or one that fails to decode,
    the iteration returns normally, writes nothing, prints nothing on the
    error stream, leaves the agent's fields (sequence counter included) as
    they were, and the loop goes on with the next iteration. *)
Theorem undecodable_message_discarded s p s1 e1 buf t :
  poll io s = Normal (p, true) s1 e1 ->
  io_readMessage io (st_io s1) = IOok buf t ->
  buf = [] \/ isFailure (codec_decode codec buf) = true ->
  iteration io codec s
    = Normal tt (mkState (st_agent s) t) (e1 ++ CallReadMessage :: receivedNotice buf) /\
  written (e1 ++ CallReadMessage :: receivedNotice buf) = [] /\
  count isCerr (e1 ++ CallReadMessage :: receivedNotice buf) = 0%nat /\
  forall n,
    iterations io codec (S n) s
    = after (e1 ++ CallReadMessage :: receivedNotice buf)
        (iterations io codec n (mkState (st_agent s) t)).
Proof.
  intros P R H.
  destruct (poll_returns _ _ _ _ _ P) as (_ & A & W & C).
  assert (I : iteration io codec s
              = Normal tt (mkState (st_agent s) t)
                  (e1 ++ CallReadMessage :: receivedNotice buf)).
  { rewrite (iteration_after_poll _ _ _ _ _ P).
    rewrite (handleIncoming_discards _ _ _ R H), A. reflexivity. }
  split; [exact I|]. split; [|split].
  - rewrite written_app, W. destruct buf; reflexivity.
  - rewrite count_app, C. destruct buf; reflexivity.
  - intros n. rewrite iterations_S, I. reflexivity.
Qed.

(** ** Several iterations *)

Lemma closed_iteration Closed s :
  staysClosed io Closed -> Closed (st_io s) ->
  exists t, iteration io codec s = Normal tt (mkState (st_agent s) t) closedTick
            /\ Closed t.
Proof.
  intros SC C0.
  destruct (SC _ C0) as ((t1 & H1 & C1) & _).
  destruct (SC _ C1) as (_ & (t2 & H2 & C2) & _).
  destruct (SC _ C2) as ((t3 & H3 & C3) & _).
  destruct (SC _ C3) as (_ & _ & (t4 & H4 & C4)).
  destruct (SC _ C4) as ((t5 & H5 & C5) & _).
  destruct (SC _ C5) as ((t6 & H6 & C6) & _).
  exists t6. split; [|exact C6].
  rewrite (iteration_after_poll _ _ _ _ _ (poll_closed _ _ _ _ _ H1 H2 H3 H4)).
  assert (H5' : io_isConnectionClosed io (st_io (mkState (st_agent s) t4)) = IOok true t5)
    by exact H5.
  rewrite (periodicTasks_closed _ _ _ _ H5' H6). reflexivity.
Qed.

Lemma closedTick_counts n :
  count isOpenSocket (List.concat (repeat closedTick n)) = n /\
  count isSleep (List.concat (repeat closedTick n)) = n /\
  count isReadMessage (List.concat (repeat closedTick n)) = 0%nat /\
  count isWriteMessage (List.concat (repeat closedTick n)) = 0%nat.
Proof.
  induction n as [|n (IH1 & IH2 & IH3 & IH4)]; [repeat split; reflexivity|].
  cbn [repeat List.concat]. rewrite !count_app, IH1, IH2, IH3, IH4.
  repeat split; reflexivity.
Qed.

(** C7: against a transport that reports the connection closed on every
    check, each iteration is the same seven steps, with one openSocket and
    one sleep and neither readMessage nor writeMessage; over [n]
    iterations that makes [n] calls of each of the former and none of the
    latter. *)
Theorem closed_transport_is_only_retried Closed n s :
  staysClosed io Closed -> Closed (st_io s) ->
  events (iterations io codec n s) = List.concat (repeat closedTick n) /\
  returned (iterations io codec n s) = true /\
  count isOpenSocket (events (iterations io codec n s)) = n /\
  count isSleep (events (iterations io codec n s)) = n /\
  count isReadMessage (events (iterations io codec n s)) = 0%nat /\
  count isWriteMessage (events (iterations io codec n s)) = 0%nat.
Proof.
  intros SC C0.
  assert (E : events (iterations io codec n s) = List.concat (repeat closedTick n)
              /\ returned (iterations io codec n s) = true).
  { revert s C0. induction n as [|n IH]; intros s C0; [split; reflexivity|].
    destruct (closed_iteration Closed s SC C0) as (t & I & C1).
    rewrite iterations_S, I.
    destruct (IH (mkState (st_agent s) t) C1) as (IHe & IHr).
    destruct (iterations io codec n _); cbn in *; rewrite IHe; auto. }
  destruct E as (E & R). rewrite E. split; [reflexivity|]. split; [exact R|].
  apply closedTick_counts.
Qed.

(** C10: as long as the transport reports inbound data at each iteration,
    no iteration is marked periodic and no HELLO request is written,
    whatever the messages read turn out to be. *)
Theorem inbound_data_suppresses_heartbeat n s :
  everyIteration io codec (dataReported io) n s ->
  everyIteration io codec (fun s' => flags io s' = Some (false, true)) n s /\
  Forall (fun m => isHeartbeat m = false) (written (events (iterations io codec n s))).
Proof.
  revert s. induction n as [|n IH]; intros s H; [split; constructor|].
  cbn [everyIteration] in H |- *. destruct H as ((p & F) & H).
  unfold flags in F.
  destruct (poll io s) as [[p' d] s1 e1|w s1 e1] eqn:P; [|discriminate].
  inversion F; subst p' d.
  destruct (poll_returns _ _ _ _ _ P) as (-> & A & W & _).
  rewrite iterations_S.
  assert (HB : Forall (fun m => isHeartbeat m = false)
                 (written (events (iteration io codec s)))).
  { rewrite (iteration_after_poll _ _ _ _ _ P), events_after, written_app, W.
    apply handleIncoming_no_heartbeat. }
  destruct (iteration io codec s) as [[] s2 e2|w s2 e2].
  - destruct (IH _ H) as (IH1 & IH2). split.
    + split; [unfold flags; rewrite P; reflexivity | exact IH1].
    + rewrite events_after, written_app. apply Forall_app. split; assumption.
  - split; [|exact HB]. split; [unfold flags; rewrite P; reflexivity | exact I].
Qed.

(** ** Sequence numbers along a run *)

Lemma u32_range x : 0 <= u32 x < 2^32.
Proof. unfold u32. apply Z.mod_pos_bound. reflexivity. Qed.

Lemma numbered_nil start eid : numbered start eid [].
Proof. intros [|i] m H; discriminate. Qed.

Lemma numbered_cons start eid m ms :
  0 <= start < 2^32 ->
  h_sequence (enc_header m) = start ->
  h_elementId (enc_header m) = eid ->
  numbered (u32 (start + 1)) eid ms ->
  numbered start eid (m :: ms).
Proof.
  intros R Hs He IH [|i] m' H; cbn in H.
  - inversion H; subst m'. split; [|exact He].
    rewrite Hs. unfold u32. cbn [Z.of_nat]. rewrite Z.add_0_r, Z.mod_small; lia.
  - destruct (IH i m' H) as (H1 & H2). split; [|exact H2].
    rewrite H1. unfold u32. rewrite Zplus_mod_idemp_l. f_equal. lia.
Qed.

Lemma iterations_numbered n : forall s,
  0 <= sequence (st_agent s) < 2^32 ->
  numbered (sequence (st_agent s)) (u64 (enbId (st_agent s)))
    (written (events (iterations io codec n s))).
Proof.
  induction n as [|n IH]; intros s R; [apply numbered_nil|].
  rewrite iterations_S.
  pose proof (iteration_stamps s) as St.
  destruct (iteration io codec s) as [[] s1 e1|w s1 e1];
    unfold stampsAtMostOnce in St; cbn [events final] in St |- *.
  - rewrite events_after, written_app.
    destruct St as [[W A]|(m & W & Hs & He & A)]; rewrite W; cbn [app].
    + rewrite <- A. apply IH. rewrite A. exact R.
    + apply numbered_cons; auto.
      replace (u32 (sequence (st_agent s) + 1)) with (sequence (st_agent s1))
        by (rewrite A; reflexivity).
      replace (enbId (st_agent s)) with (enbId (st_agent s1))
        by (rewrite A; reflexivity).
      apply IH. rewrite A. apply u32_range.
  - destruct St as [[W A]|(m & W & Hs & He & A)]; rewrite W.
    + apply numbered_nil.
    + apply numbered_cons; auto. apply numbered_nil.
Qed.

Lemma mainLoop_written n s :
  exists t,
    written (events (mainLoop io codec n s)) = [] \/
    written (events (mainLoop io codec n s))
    = written (events (iterations io codec n (mkState (st_agent s) t))).
Proof.
  unfold mainLoop, bind, getBits, try_catch, makeMessageBuffer, call, cerr, emit.
  cbn.
  destruct (io_makeMessageBuffer io _) as [[] t1|[w|] t1]; cbn;
    [|exists t1; left; reflexivity..].
  destruct (io_makeMessageBuffer io t1) as [[] t2|[w|] t2]; cbn;
    [|exists t2; left; reflexivity..].
  exists t2. right.
  destruct (iterations io codec n _) as [[] s3 e3|[w|] s3 e3]; cbn.
  - reflexivity.
  - rewrite written_app. cbn. apply app_nil_r.
  - reflexivity.
Qed.

Lemma mainLoop_numbered n s :
  0 <= sequence (st_agent s) < 2^32 ->
  numbered (sequence (st_agent s)) (u64 (enbId (st_agent s)))
    (written (events (mainLoop io codec n s))).
Proof.
  intros R. destruct (mainLoop_written n s) as (t & [W|W]); rewrite W.
  - apply numbered_nil.
  - apply (iterations_numbered n (mkState (st_agent s) t)). exact R.
Qed.

(** ** [init] *)

Lemma init_runs args (s : State T) :
  init IPv4Address_of_string args s
  = match IPv4Address_of_string (empoweragent_controller_addr args) with
    | inl a =>
        Normal false
          (mkState
             (mkBits (agentThread (st_agent s)) a
                (u16 (empoweragent_controller_port args))
                (u32 (empoweragent_delayms args))
                (u16 (enb_pci args)) (u32 (enb_dl_earfcn args))
                (u32 (enb_ul_earfcn args)) (u8 (enb_n_prb args))
                (u32 (stack_s1ap_enb_id args)) 1)
             (st_io s)) []
    | inr what =>
        Normal true s
          [Cerr [PStr "AGENT: *** caught exception while initializing Empower agent: ";
                 PStr what; PStr nl]]
    end.
Proof.
  unfold init, try_catch, bind, new_IPv4Address.
  destruct (IPv4Address_of_string _); reflexivity.
Qed.



(** C1, as amended: after a successful [init], the [i]-th message written
    by the loop (counting from 0) carries sequence number (1 + i) mod 2^32
    and the element identifier the agent was configured with; the numbers
    therefore go up by exactly 1 from 1 until the 32-bit counter wraps. *)
Theorem sequence_numbers_modulo_2_32 args s0 s e n i m :
  init IPv4Address_of_string args s0 = Normal false s e ->
  nth_error (written (events (mainLoop io codec n s))) i = Some m ->
  h_sequence (enc_header m) = (1 + Z.of_nat i) mod 2^32 /\
  (Z.of_nat i < 2^32 - 1 -> h_sequence (enc_header m) = 1 + Z.of_nat i) /\
  h_elementId (enc_header m) = enbId (st_agent s) /\
  enbId (st_agent s) = u32 (stack_s1ap_enb_id args).
Proof.
  intros I H. rewrite init_runs in I.
  destruct (IPv4Address_of_string _) as [a|what]; [|discriminate].
  inversion I; subst s e. clear I. cbn [st_agent enbId] in *.
  match type of H with
  | nth_error (written (events (mainLoop io codec n ?s1))) i = _ =>
      pose proof (mainLoop_numbered n s1) as N
  end.
  cbn [st_agent enbId sequence] in N.
  destruct (N ltac:(lia) i m H) as (Hs & He).
  fold (u32 (1 + Z.of_nat i)). rewrite Hs, He.
  split; [reflexivity|]. split; [|split; [|reflexivity]].
  - intros L. unfold u32. apply Z.mod_small. lia.
  - unfold u64, u32. apply Z.mod_small.
    pose proof (Z.mod_pos_bound (stack_s1ap_enb_id args) (2^32) eq_refl). lia.
Qed.

End Proofs.

(** ** The theorems at work on the scripted transport *)

Lemma capability_request_answered_witness :
  exists m,
    written (events (dispatch Sim.io Sim.codec
                       (mkHeader 40 9 REQUEST_SET CAPABILITIES_SERVICE)
                       (mkState Sim.bits Sim.idle))) = [m] /\
    h_messageClass (enc_header m) = RESPONSE_SUCCESS /\
    h_entityClass (enc_header m) = CAPABILITIES_SERVICE /\
    enc_tlvs m = [TLVCell 5 25 1850 19850].
Proof.
  apply (capability_request_answered Sim.io Sim.codec
           (mkHeader 40 9 REQUEST_SET CAPABILITIES_SERVICE)
           (mkState Sim.bits Sim.idle)); reflexivity.
Defined.

Lemma heartbeat_on_connected_idle_tick_witness :
  exists m,
    written (events (iteration Sim.io Sim.codec (mkState Sim.bits Sim.idle))) = [m] /\
    h_messageClass (enc_header m) = REQUEST_SET /\
    h_entityClass (enc_header m) = HELLO_SERVICE /\
    enc_tlvs m = [TLVPeriodicityMs 2000] /\
    m = helloRequest 1 17 2000.
Proof.
  apply (heartbeat_on_connected_idle_tick Sim.io Sim.codec
           (mkState Sim.bits Sim.idle) true (mkState Sim.bits Sim.idle)
           [CallIsConnectionClosed; CallIsConnectionClosed; CallIsDataAvailable]
           false Sim.idle Sim.idle 2000 Sim.idle); reflexivity.
Defined.

Lemma unanswered_unless_capabilities_witness :
  dispatch Sim.io Sim.codec (mkHeader 40 9 REQUEST_SET HELLO_SERVICE)
    (mkState Sim.bits Sim.idle)
  = Normal tt (mkState Sim.bits Sim.idle)
      [Cout [PStr ("AGENT: got a REPLY for HELLO_SERVICE (discarded)" ++ nl)%string]].
Proof.
  apply (unanswered_unless_capabilities Sim.io Sim.codec
           (mkHeader 40 9 REQUEST_SET HELLO_SERVICE) (mkState Sim.bits Sim.idle));
    reflexivity.
Defined.

Example other_entity_is_reported :
  dispatch Sim.io Sim.codec (mkHeader 40 9 REQUEST_SET (EntityClass_other 7))
    (mkState Sim.bits Sim.idle)
  = Normal tt (mkState Sim.bits Sim.idle)
      [Cerr [PStr ("AGENT: *** got unexpected message class" ++ nl)%string]].
Proof. reflexivity. Qed.

(** C4 fails on the code: a RESPONSE_SUCCESS for CAPABILITIES_SERVICE is none
    of the two pairs the claim sets apart, yet it is answered and the
    sequence counter moves. *)
Lemma capabilities_answered_whatever_the_class :
  specUnexpected (mkHeader 40 9 RESPONSE_SUCCESS CAPABILITIES_SERVICE) = true /\
  written (events (dispatch Sim.io Sim.codec
                     (mkHeader 40 9 RESPONSE_SUCCESS CAPABILITIES_SERVICE)
                     (mkState Sim.bits Sim.idle)))
  = [capabilitiesResponse 1 17 (5, 25, 1850, 19850)] /\
  sequence (st_agent (final (dispatch Sim.io Sim.codec
                               (mkHeader 40 9 RESPONSE_SUCCESS CAPABILITIES_SERVICE)
                               (mkState Sim.bits Sim.idle)))) = 2.
Proof. repeat split. Qed.

Lemma reconnect_then_retest_witness :
  poll Sim.io (mkState Sim.bits Sim.down)
  = Normal (true, false) (mkState Sim.bits Sim.down)
      [CallIsConnectionClosed; CallOpenSocket; CallIsConnectionClosed; CallSleep].
Proof.
  apply (proj1 (reconnect_then_retest Sim.io (mkState Sim.bits Sim.down)
                  Sim.down Sim.down true Sim.down eq_refl eq_refl eq_refl)
           eq_refl Sim.down eq_refl).
Defined.

(** C5 fails on the code: the connection is closed at the first check, the
    connect attempt succeeds, and the agent neither sleeps nor marks the
    iteration periodic; it goes on to read the message that is waiting. *)
Lemma successful_connect_is_not_followed_by_sleep :
  io_isConnectionClosed Sim.io (Sim.mk true true [[x01; x02]] None 2000 [])
  = IOok true (Sim.mk true true [[x01; x02]] None 2000 []) /\
  poll Sim.io (mkState Sim.bits (Sim.mk true true [[x01; x02]] None 2000 []))
  = Normal (false, true) (mkState Sim.bits (Sim.mk false true [[x01; x02]] None 2000 []))
      [CallIsConnectionClosed; CallOpenSocket; CallIsConnectionClosed;
       CallIsDataAvailable] /\
  count isSleep (events (iteration Sim.io Sim.codec
                           (mkState Sim.bits (Sim.mk true true [[x01; x02]] None 2000 []))))
  = 0%nat.
Proof. repeat split. Qed.

Lemma undecodable_message_discarded_witness :
  iteration Sim.io Sim.codec (mkState Sim.bits (Sim.mk false true [[xff]] None 2000 []))
  = Normal tt (mkState Sim.bits Sim.idle)
      ([CallIsConnectionClosed; CallIsConnectionClosed; CallIsDataAvailable]
       ++ CallReadMessage :: receivedNotice [xff]).
Proof.
  apply (undecodable_message_discarded Sim.io Sim.codec
           (mkState Sim.bits (Sim.mk false true [[xff]] None 2000 []))
           false
           (mkState Sim.bits (Sim.mk false true [[xff]] None 2000 []))
           [CallIsConnectionClosed; CallIsConnectionClosed; CallIsDataAvailable]
           [xff] Sim.idle eq_refl eq_refl (or_intror eq_refl)).
Defined.

Lemma closed_transport_is_only_retried_witness :
  count isOpenSocket (events (iterations Sim.io Sim.codec 3 (mkState Sim.bits Sim.down)))
  = 3%nat /\
  count isSleep (events (iterations Sim.io Sim.codec 3 (mkState Sim.bits Sim.down)))
  = 3%nat /\
  count isReadMessage (events (iterations Sim.io Sim.codec 3 (mkState Sim.bits Sim.down)))
  = 0%nat /\
  count isWriteMessage (events (iterations Sim.io Sim.codec 3 (mkState Sim.bits Sim.down)))
  = 0%nat.
Proof.
  apply (closed_transport_is_only_retried Sim.io Sim.codec
           (fun x => x = Sim.down) 3 (mkState Sim.bits Sim.down)).
  - intros x ->. repeat split; exists Sim.down; split; reflexivity.
  - reflexivity.
Defined.

Lemma inbound_data_suppresses_heartbeat_witness :
  Forall (fun m => isHeartbeat m = false)
    (written (events (iterations Sim.io Sim.codec 3
                        (mkState Sim.bits (Sim.mk false true [] (Some [xff]) 2000 []))))).
Proof.
  apply (inbound_data_suppresses_heartbeat Sim.io Sim.codec 3
           (mkState Sim.bits (Sim.mk false true [] (Some [xff]) 2000 []))).
  cbn. unfold dataReported.
  repeat split; exists false; reflexivity.
Defined.

Lemma sequence_numbers_modulo_2_32_witness :
  h_sequence (enc_header (helloRequest 3 17 2000)) = (1 + Z.of_nat 2) mod 2^32 /\
  (Z.of_nat 2 < 2^32 - 1 ->
   h_sequence (enc_header (helloRequest 3 17 2000)) = 1 + Z.of_nat 2) /\
  h_elementId (enc_header (helloRequest 3 17 2000)) = 17 /\
  17 = u32 17.
Proof.
  apply (sequence_numbers_modulo_2_32 Sim.io Sim.codec Sim.parse Sim.args
           (mkState Sim.blank Sim.idle) (mkState Sim.bits Sim.idle) [] 3 2
           (helloRequest 3 17 2000)); reflexivity.
Defined.



Example init_rejects_bad_address :
  init Sim.parse (mkArgs "" 2210 2000 5 1850 19850 25 17) (mkState Sim.blank Sim.idle)
  = Normal true (mkState Sim.blank Sim.idle)
      [Cerr [PStr "AGENT: *** caught exception while initializing Empower agent: ";
             PStr "invalid address"; PStr nl]].
Proof. reflexivity. Qed.

(** ** The counter wraps *)

Lemma idle_iteration_writes_once a c d snt :
  exists a' snt' e,
    iteration Sim.io Sim.codec (mkState a (Sim.mk false c [] None d snt))
    = Normal tt (mkState a' (Sim.mk false c [] None d snt')) e /\
    List.length (written e) = 1%nat.
Proof. do 3 eexists. split; reflexivity. Qed.

Lemma idle_iterations_write_n n : forall a c d snt,
  List.length (written (events (iterations Sim.io Sim.codec n
                                  (mkState a (Sim.mk false c [] None d snt))))) = n.
Proof.
  induction n as [|n IH]; intros a c d snt; [reflexivity|].
  rewrite iterations_S.
  destruct (idle_iteration_writes_once a c d snt) as (a' & snt' & e & I & L).
  rewrite I, events_after, written_app, length_app, L, IH. reflexivity.
Qed.

Lemma idle_mainLoop_nth n i :
  (i < n)%nat ->
  exists m,
    nth_error (written (events (mainLoop Sim.io Sim.codec n (mkState Sim.bits Sim.idle)))) i
    = Some m /\
    h_sequence (enc_header m) = u32 (1 + Z.of_nat i).
Proof.
  intros L.
  assert (W : written (events (mainLoop Sim.io Sim.codec n (mkState Sim.bits Sim.idle)))
              = written (events (iterations Sim.io Sim.codec n
                                   (mkState Sim.bits Sim.idle)))).
  { unfold mainLoop, bind, getBits, try_catch, makeMessageBuffer, call, cerr, emit.
    cbn -[iterations].
    destruct (iterations Sim.io Sim.codec n _) as [[] s3 e3|[w|] s3 e3]; cbn.
    - reflexivity.
    - rewrite written_app. cbn. apply app_nil_r.
    - reflexivity. }
  destruct (nth_error (written (events (mainLoop Sim.io Sim.codec n
                                          (mkState Sim.bits Sim.idle)))) i)
    as [m|] eqn:E.
  - exists m. split; [reflexivity|].
    apply (mainLoop_numbered Sim.io Sim.codec n (mkState Sim.bits Sim.idle)
             ltac:(cbn; lia) i m E).
  - apply nth_error_None in E. rewrite W in E.
    unfold Sim.idle in E. rewrite idle_iterations_write_n in E. lia.
Qed.

(** C1 fails on the code: in a run of 2^32 idle ticks on an open connection,
    started from the state [init] leaves, the message after the one numbered
    4294967295 is numbered 0. *)
Lemma sequence_number_wraps_to_zero :
  init Sim.parse Sim.args (mkState Sim.blank Sim.idle)
  = Normal false (mkState Sim.bits Sim.idle) [] /\
  exists m1 m2,
    nth_error (written (events (mainLoop Sim.io Sim.codec (N.to_nat 4294967296)
                                  (mkState Sim.bits Sim.idle))))
      (N.to_nat 4294967294) = Some m1 /\
    nth_error (written (events (mainLoop Sim.io Sim.codec (N.to_nat 4294967296)
                                  (mkState Sim.bits Sim.idle))))
      (N.to_nat 4294967295) = Some m2 /\
    h_sequence (enc_header m1) = 4294967295 /\
    h_sequence (enc_header m2) = 0.
Proof.
  split; [reflexivity|].
  assert (L1 : (N.to_nat 4294967294 < N.to_nat 4294967296)%nat).
  { apply Nat.compare_lt_iff. rewrite <- N2Nat.inj_compare. reflexivity. }
  assert (L2 : (N.to_nat 4294967295 < N.to_nat 4294967296)%nat).
  { apply Nat.compare_lt_iff. rewrite <- N2Nat.inj_compare. reflexivity. }
  destruct (idle_mainLoop_nth _ _ L1) as (m1 & E1 & S1).
  destruct (idle_mainLoop_nth _ _ L2) as (m2 & E2 & S2).
  exists m1, m2. split; [exact E1|]. split; [exact E2|].
  rewrite S1, S2, !N_nat_Z. split; reflexivity.
Qed.

(** ** Whole runs *)

Section Runs.

Context {T : Type} (io : IO T) (codec : Codec).

Lemma mainLoop_guarded n (s : State T) :
  mainLoop io codec n s
  = match guarded io codec n (configured io s) with
    | Normal _ s' e => Normal tt s' e
    | Thrown (StdException what) s' e => Normal tt s' (e ++ [caughtNotice what])
    | Thrown OtherException s' e => Thrown OtherException s' e
    end.
Proof.
  unfold mainLoop, guarded. unfold bind at 1. unfold getBits at 1. cbn beta iota.
  unfold bind at 1. cbn beta iota. fold (configured io s).
  unfold try_catch, cerr, emit, caughtNotice.
  destruct (bind (makeMessageBuffer io) _ (configured io s)) as [[] s' e|[w|] s' e];
    cbn; rewrite ?app_nil_r; reflexivity.
Qed.

Lemma guarded_runs n (s : State T) t1 t2 :
  io_makeMessageBuffer io (st_io s) = IOok tt t1 ->
  io_makeMessageBuffer io t1 = IOok tt t2 ->
  guarded io codec n s
  = after [CallMakeMessageBuffer; CallMakeMessageBuffer]
      (iterations io codec n (mkState (st_agent s) t2)).
Proof.
  intros H1 H2. unfold guarded, bind, makeMessageBuffer, call.
  rewrite H1. cbn. rewrite H2. cbn.
  destruct (iterations io codec n _); reflexivity.
Qed.

(** X2: when either buffer allocation at the start of [mainLoop] throws a
    [std::exception], the loop is never entered: apart from the allocation
    calls nothing is called on the transport, the exception is reported,
    and the agent's fields are as before, however long the loop would have
    run. *)
Theorem setup_failure_aborts n (s : State T) w t :
  io_makeMessageBuffer io (st_io (configured io s)) = IOexn (StdException w) t \/
  (exists t1, io_makeMessageBuffer io (st_io (configured io s)) = IOok tt t1 /\
              io_makeMessageBuffer io t1 = IOexn (StdException w) t) ->
  exists calls,
    mainLoop io codec n s
    = Normal tt (mkState (st_agent s) t) (calls ++ [caughtNotice w]) /\
    Forall (fun e => e = CallMakeMessageBuffer) calls.
Proof.
  intros [H|(t1 & H1 & H2)]; rewrite mainLoop_guarded;
    unfold guarded, bind, makeMessageBuffer, call.
  - rewrite H. exists [CallMakeMessageBuffer]. split; [reflexivity|].
    repeat constructor.
  - rewrite H1. cbn. rewrite H2.
    exists [CallMakeMessageBuffer; CallMakeMessageBuffer]. split; [reflexivity|].
    repeat constructor.
Qed.

(** X4: a decodable HELLO_SERVICE message, whatever its message class, is
    printed and dropped: the iteration returns, writes nothing, and leaves
    the agent's fields, sequence counter included, unchanged. *)
Theorem hello_reply_discarded (s : State T) p s1 e1 buf t :
  poll io s = Normal (p, true) s1 e1 ->
  io_readMessage io (st_io s1) = IOok buf t ->
  buf <> [] ->
  isFailure (codec_decode codec buf) = false ->
  h_entityClass (header (codec_decode codec buf)) = HELLO_SERVICE ->
  iteration io codec s
  = Normal tt (mkState (st_agent s) t)
      (e1 ++ CallReadMessage :: receivedNotice buf
          ++ [Cout [PStr ("AGENT: got a REPLY for HELLO_SERVICE (discarded)" ++ nl)%string]])
  /\ written (events (iteration io codec s)) = [].
Proof.
  intros P R N F E.
  destruct (poll_returns io _ _ _ _ _ P) as (_ & A & W & _).
  assert (I : iteration io codec s
              = Normal tt (mkState (st_agent s) t)
                  (e1 ++ CallReadMessage :: receivedNotice buf
                      ++ [Cout [PStr ("AGENT: got a REPLY for HELLO_SERVICE (discarded)"
                                      ++ nl)%string]])).
  { rewrite (iteration_after_poll io codec _ _ _ _ _ P).
    rewrite (handleIncoming_dispatches io codec _ _ _ R N F).
    unfold dispatch. rewrite E, A. reflexivity. }
  split; [exact I|]. rewrite I. cbn [events].
  rewrite written_app, W. destruct buf; [congruence|reflexivity].
Qed.

(** ** What a run leaves of the agent, and what it sends *)

Lemma sameConfiguration_refl a : sameConfiguration a a.
Proof. unfold sameConfiguration. repeat split. Qed.

Lemma sameConfiguration_bump v a b :
  sameConfiguration a b -> sameConfiguration (with_sequence v a) b.
Proof. unfold sameConfiguration. cbn. tauto. Qed.

Lemma sameConfiguration_trans a b c :
  sameConfiguration a b -> sameConfiguration b c -> sameConfiguration a c.
Proof. unfold sameConfiguration. intuition congruence. Qed.

Lemma iterations_counter n : forall s : State T,
  0 <= sequence (st_agent s) < 2^32 ->
  sameConfiguration (st_agent (final (iterations io codec n s))) (st_agent s) /\
  sequence (st_agent (final (iterations io codec n s)))
  = u32 (sequence (st_agent s)
         + Z.of_nat (List.length (written (events (iterations io codec n s))))) /\
  (List.length (written (events (iterations io codec n s))) <= n)%nat.
Proof.
  induction n as [|n IH]; intros s R.
  - cbn. split; [apply sameConfiguration_refl|]. split; [|lia].
    unfold u32. rewrite Z.add_0_r, Z.mod_small; lia.
  - rewrite iterations_S.
    pose proof (iteration_stamps io codec s) as St.
    destruct (iteration io codec s) as [[] s1 e1|w s1 e1];
      unfold stampsAtMostOnce in St; cbn [events final] in St |- *.
    + rewrite events_after, final_after, written_app, length_app.
      destruct St as [[W A]|(m & W & _ & _ & A)]; rewrite W; cbn [List.length].
      * destruct (IH s1) as (C & S & L); [rewrite A; exact R|].
        rewrite <- A. split; [exact C|]. split; [exact S|lia].
      * destruct (IH s1) as (C & S & L); [rewrite A; apply u32_range|].
        split; [|split; [|lia]].
        -- eapply sameConfiguration_trans; [exact C|].
           rewrite A. apply sameConfiguration_bump, sameConfiguration_refl.
        -- rewrite S, A. cbn [sequence with_sequence]. unfold u32.
           rewrite Zplus_mod_idemp_l. f_equal. lia.
    + destruct St as [[W A]|(m & W & _ & _ & A)]; rewrite W, A; cbn [List.length].
      * split; [apply sameConfiguration_refl|]. split; [|lia].
        unfold u32. rewrite Z.add_0_r, Z.mod_small; lia.
      * split; [apply sameConfiguration_bump, sameConfiguration_refl|].
        split; [reflexivity|lia].
Qed.

(** How [guarded] goes: a buffer allocation throws and nothing else
    happens, or the loop runs from a state with the same agent fields. *)
Lemma guarded_cases n (s : State T) :
  (written (events (guarded io codec n s)) = [] /\
   st_agent (final (guarded io codec n s)) = st_agent s /\
   returned (guarded io codec n s) = false) \/
  (exists t, guarded io codec n s
             = after [CallMakeMessageBuffer; CallMakeMessageBuffer]
                 (iterations io codec n (mkState (st_agent s) t))).
Proof.
  destruct (io_makeMessageBuffer io (st_io s)) as [[] t1|w t1] eqn:H1.
  - destruct (io_makeMessageBuffer io t1) as [[] t2|w t2] eqn:H2.
    + right. exists t2. apply (guarded_runs _ _ _ _ H1 H2).
    + left. unfold guarded, bind, makeMessageBuffer, call.
      rewrite H1. cbn. rewrite H2. repeat split.
  - left. unfold guarded, bind, makeMessageBuffer, call. rewrite H1. repeat split.
Qed.

Lemma mainLoop_final n (s : State T) :
  final (mainLoop io codec n s) = final (guarded io codec n (configured io s)) /\
  written (events (mainLoop io codec n s))
  = written (events (guarded io codec n (configured io s))).
Proof.
  rewrite mainLoop_guarded.
  destruct (guarded io codec n (configured io s)) as [[] s1 e1|[w|] s1 e1]; cbn.
  - split; reflexivity.
  - split; [reflexivity|]. rewrite written_app. cbn. apply app_nil_r.
  - split; reflexivity.
Qed.

(** X5: the loop never changes what [init] configured: after any number
    of iterations, and however the loop ends, every private field other
    than the sequence counter is as it was when [mainLoop] started. *)
Theorem run_keeps_configuration n (s : State T) :
  sameConfiguration (st_agent (final (mainLoop io codec n s))) (st_agent s).
Proof.
  destruct (mainLoop_final n s) as (-> & _).
  destruct (guarded_cases n (configured io s)) as [(_ & A & _)|(t & G)].
  - rewrite A. apply sameConfiguration_refl.
  - rewrite G, final_after.
    assert (C : forall k (x : State T),
               sameConfiguration (st_agent (final (iterations io codec k x))) (st_agent x)).
    { induction k as [|k IH]; intros x; [apply sameConfiguration_refl|].
      rewrite iterations_S.
      pose proof (iteration_stamps io codec x) as St.
      destruct (iteration io codec x) as [[] s1 e1|w s1 e1];
        unfold stampsAtMostOnce in St; cbn [events final] in St |- *.
      - rewrite final_after.
        eapply sameConfiguration_trans; [apply IH|].
        destruct St as [[_ A]|(m & _ & _ & _ & A)]; rewrite A;
          [|apply sameConfiguration_bump]; apply sameConfiguration_refl.
      - destruct St as [[_ A]|(m & _ & _ & _ & A)]; rewrite A;
          [|apply sameConfiguration_bump]; apply sameConfiguration_refl. }
    apply (C n (mkState (st_agent (configured io s)) t)).
Qed.

(** X6: the sequence counter counts the messages handed to the transport:
    started within 32 bits, after [n] iterations it is the initial value
    plus the number of messages written, modulo 2^32, and at most [n]
    messages have been written. *)
Theorem counter_counts_messages n (s : State T) :
  0 <= sequence (st_agent s) < 2^32 ->
  sequence (st_agent (final (mainLoop io codec n s)))
  = u32 (sequence (st_agent s)
         + Z.of_nat (List.length (written (events (mainLoop io codec n s))))) /\
  (List.length (written (events (mainLoop io codec n s))) <= n)%nat.
Proof.
  intros R. destruct (mainLoop_final n s) as (-> & ->).
  destruct (guarded_cases n (configured io s)) as [(W & A & _)|(t & G)].
  - rewrite W, A. cbn. split; [|lia].
    unfold u32. rewrite Z.add_0_r, Z.mod_small; lia.
  - rewrite G, final_after, events_after, written_app. cbn [written app].
    destruct (iterations_counter n (mkState (st_agent (configured io s)) t) R)
      as (_ & S & L).
    split; assumption.
Qed.

Lemma agentMessage_hello seq eid cell ms : agentMessage eid cell (helloRequest seq eid ms).
Proof. exists seq. left. exists ms. reflexivity. Qed.

Lemma agentMessage_capabilities seq eid cell :
  agentMessage eid cell (capabilitiesResponse seq eid cell).
Proof. exists seq. right. reflexivity. Qed.

Lemma handleIncoming_messages (s : State T) :
  Forall (agentMessage (u64 (enbId (st_agent s))) (cellOf (st_agent s)))
    (written (events (handleIncoming io codec s))).
Proof.
  destruct (io_readMessage io (st_io s)) as [buf t|w t] eqn:R.
  - destruct buf as [|b r] eqn:B.
    + rewrite (handleIncoming_discards _ _ _ _ _ R) by auto. constructor.
    + destruct (isFailure (codec_decode codec (b :: r))) eqn:F.
      * rewrite (handleIncoming_discards _ _ _ _ _ R) by auto. constructor.
      * rewrite (handleIncoming_dispatches _ _ _ _ _ R) by (auto; discriminate).
        rewrite events_after. cbn [written receivedNotice app].
        rewrite dispatch_written. cbn [st_agent].
        destruct (isCapabilities _); repeat constructor.
        apply agentMessage_capabilities.
  - unfold handleIncoming, bind, readMessage, call. rewrite R. constructor.
Qed.

Lemma periodicTasks_messages (s : State T) :
  Forall (agentMessage (u64 (enbId (st_agent s))) (cellOf (st_agent s)))
    (written (events (periodicTasks io codec s))).
Proof.
  destruct (io_isConnectionClosed io (st_io s)) as [c t1|w t1] eqn:H1.
  - destruct (io_isConnectionClosed io t1) as [[|] t2|w t2] eqn:H2.
    + rewrite (periodicTasks_closed _ _ _ _ _ _ H1 H2). constructor.
    + rewrite (periodicTasks_open _ _ _ _ _ _ H1 H2), events_after.
      cbn [written app].
      destruct (io_delay io t2) as [ms t3|w t3] eqn:D.
      * assert (D' : io_delay io (st_io (mkState (st_agent s) t2)) = IOok ms t3)
          by exact D.
        rewrite (sendHello_runs _ _ _ _ _ D'). cbn zeta. cbn [st_agent].
        destruct (io_writeMessage io _ t3); cbn; repeat constructor;
          apply agentMessage_hello.
      * unfold sendHello, bind, delay, call. cbn [st_io]. rewrite D. constructor.
    + unfold periodicTasks, bind, isConnectionClosed, call, cout, emit.
      cbn. rewrite H1. cbn. rewrite H2. constructor.
  - unfold periodicTasks, bind, isConnectionClosed, call, cout, emit.
    cbn. rewrite H1. constructor.
Qed.

Lemma iteration_messages (s : State T) :
  Forall (agentMessage (u64 (enbId (st_agent s))) (cellOf (st_agent s)))
    (written (events (iteration io codec s))).
Proof.
  destruct (poll io s) as [[p d] s1 e1|w s1 e1] eqn:P.
  - rewrite (iteration_after_poll _ _ _ _ _ _ _ P), events_after, written_app.
    destruct (poll_returns _ _ _ _ _ _ P) as (_ & A & W & _).
    rewrite W, <- A. cbn [app].
    destruct d; [apply handleIncoming_messages | apply periodicTasks_messages].
  - pose proof (poll_quiet io s) as (Q & _). rewrite P in Q.
    unfold iteration. rewrite (bind_Thrown _ _ _ _ _ _ P). cbn [events] in *.
    rewrite Q. constructor.
Qed.

Lemma iterations_messages n : forall s : State T,
  Forall (agentMessage (u64 (enbId (st_agent s))) (cellOf (st_agent s)))
    (written (events (iterations io codec n s))).
Proof.
  induction n as [|n IH]; intros s; [constructor|].
  rewrite iterations_S.
  pose proof (iteration_messages s) as M1.
  pose proof (iteration_stamps io codec s) as St.
  destruct (iteration io codec s) as [[] s1 e1|w s1 e1];
    unfold stampsAtMostOnce in St; cbn [events final] in St, M1 |- *; [|exact M1].
  rewrite events_after, written_app. apply Forall_app. split; [exact M1|].
  assert (E : enbId (st_agent s1) = enbId (st_agent s) /\
              cellOf (st_agent s1) = cellOf (st_agent s)).
  { destruct St as [[_ A]|(m & _ & _ & _ & A)]; rewrite A; split; reflexivity. }
  destruct E as (E1 & E2). rewrite <- E1, <- E2. apply IH.
Qed.

(** X7: the agent sends nothing but its two messages: every message
    written during a run is a HELLO request or a capability response,
    stamped with the agent's element identifier, and every capability
    response carries the cell description the agent started with. *)
Theorem only_two_kinds_of_message n (s : State T) :
  Forall (agentMessage (u64 (enbId (st_agent s))) (cellOf (st_agent s)))
    (written (events (mainLoop io codec n s))).
Proof.
  destruct (mainLoop_final n s) as (_ & ->).
  destruct (guarded_cases n (configured io s)) as [(W & _)|(t & G)].
  - rewrite W. constructor.
  - rewrite G, events_after. cbn [written app].
    apply (iterations_messages n (mkState (st_agent (configured io s)) t)).
Qed.

(** ** Specification triples *)

Lemma triple_ret {A} I P (R : A -> Prop) (a : A) :
  R a -> triple (T:=T) I P R (ret a).
Proof.
  intros Ha s Hs. cbn. split; [exact Hs|]. split; [constructor|].
  intros a' s' e E. inversion E; subst. exact Ha.
Qed.

Lemma triple_bind {A B} I P (R : A -> Prop) (R' : B -> Prop)
  (m : M T A) (f : A -> M T B) :
  triple I P R m -> (forall a, R a -> triple I P R' (f a)) ->
  triple I P R' (bind m f).
Proof.
  intros Hm Hf s Hs. destruct (Hm s Hs) as (I1 & P1 & R1). unfold bind.
  destruct (m s) as [a s1 e1|w s1 e1]; cbn [final events] in *.
  - destruct (Hf a (R1 a s1 e1 eq_refl) s1 I1) as (I2 & P2 & R2).
    destruct (f a s1) as [b s2 e2|w s2 e2]; cbn [final events] in *.
    + split; [exact I2|]. split; [apply Forall_app; auto|].
      intros b' s' e E. inversion E; subst. apply (R2 b' s' e2 eq_refl).
    + split; [exact I2|]. split; [apply Forall_app; auto|]. discriminate.
  - split; [exact I1|]. split; [exact P1|]. discriminate.
Qed.

Lemma triple_emit I (P : Event -> Prop) (R : unit -> Prop) e :
  P e -> R tt -> triple (T:=T) I P R (emit e).
Proof.
  intros He Hr s Hs. cbn. split; [exact Hs|]. split; [repeat constructor; exact He|].
  intros [] s' e' _. exact Hr.
Qed.

Lemma triple_call {A} (I : State T -> Prop) (P : Event -> Prop) (R : A -> Prop)
  e (op : T -> IOResult T A) :
  P e ->
  (forall s, I s -> I (mkState (st_agent s) (stateAfter (op (st_io s))))) ->
  (forall s a t, I s -> op (st_io s) = IOok a t -> R a) ->
  triple I P R (call e op).
Proof.
  intros He Hi Hr s Hs. unfold call. specialize (Hi s Hs). specialize (Hr s).
  destruct (op (st_io s)) as [a t|w t]; cbn in *.
  - split; [exact Hi|]. split; [repeat constructor; exact He|].
    intros a' s' e' E. inversion E; subst. apply (Hr a' t Hs eq_refl).
  - split; [exact Hi|]. split; [repeat constructor; exact He|]. discriminate.
Qed.

Lemma triple_modify (I : State T -> Prop) P (R : unit -> Prop) f :
  (forall s, I s -> I (mkState (f (st_agent s)) (st_io s))) -> R tt ->
  triple I P R (modify f).
Proof.
  intros Hi Hr s Hs. cbn. split; [apply Hi, Hs|]. split; [constructor|].
  intros [] s' e' _. exact Hr.
Qed.

Lemma triple_getBits (I : State T -> Prop) P (R : PrivateBits -> Prop) :
  (forall s, I s -> R (st_agent s)) -> triple I P R getBits.
Proof.
  intros Hr s Hs. cbn. split; [exact Hs|]. split; [constructor|].
  intros a s' e E. inversion E; subst. apply Hr, Hs.
Qed.

Lemma triple_iterations I P n :
  triple I P (fun _ => True) (iteration io codec) ->
  triple I P (fun _ => True) (iterations io codec n).
Proof.
  intros H. induction n as [|n IH]; cbn [iterations].
  - apply triple_ret. exact Logic.I.
  - eapply triple_bind; [exact H|]. intros _ _. exact IH.
Qed.

(** ** The delay announced in HELLO requests *)

Section Delay.

Variable d : Z.
Variable Has : T -> Prop.
Hypothesis Hpres : preserved io Has.
Hypothesis Hread : delayReads io d Has.


Ltac keep_Has :=
  let s := fresh "s" in let Hs := fresh "Hs" in
  intros s Hs; unfold onTransport in *; cbn [st_io st_agent];
  first [ exact Hs | apply (Hpres _ Hs) ].

Ltac leaf :=
  first
    [ apply triple_ret; exact Logic.I
    | apply triple_emit; [exact Logic.I | exact Logic.I]
    | apply triple_modify; [keep_Has | exact Logic.I]
    | apply triple_getBits; intros; exact Logic.I
    | apply triple_call;
      [ cbn; try exact Logic.I; try discriminate | keep_Has | intros; exact Logic.I ] ].

Ltac walk :=
  repeat first
    [ leaf
    | eapply (triple_bind (onTransport Has) (announces d) (fun _ => True)); [|intros ? _]
    | match goal with
      | |- triple _ _ _ (if ?b then _ else _) => destruct b
      | |- triple _ _ _ (match ?x with _ => _ end) => destruct x
      | |- triple _ _ _ (let '(_, _) := ?x in _) => destruct x
      end ].

Lemma poll_delay : triple (onTransport Has) (announces d) (fun _ => True) (poll io).
Proof. unfold poll, isConnectionClosed, openSocket, sleep, isDataAvailable. walk. Qed.

Lemma handleIncoming_delay : triple (onTransport Has) (announces d) (fun _ => True) (handleIncoming io codec).
Proof.
  unfold handleIncoming, dispatch, sendCapabilities, fillHeader, readMessage,
    writeMessage, cout, cerr.
  walk.
Qed.

Lemma periodicTasks_delay : triple (onTransport Has) (announces d) (fun _ => True) (periodicTasks io codec).
Proof.
  unfold periodicTasks, isConnectionClosed, cout.
  eapply (triple_bind (onTransport Has) (announces d) (fun _ => True)); [leaf|intros _ _].
  eapply (triple_bind (onTransport Has) (announces d) (fun _ => True)); [leaf|intros c _].
  eapply (triple_bind (onTransport Has) (announces d) (fun _ => True)); [leaf|intros _ _].
  eapply (triple_bind (onTransport Has) (announces d) (fun _ => True)); [leaf|intros closed _].
  destruct closed; [leaf|]. cbn [negb].
  unfold sendHello, delay, fillHeader, writeMessage, cout.
  eapply (triple_bind (onTransport Has) (announces d) (fun ms => ms = d)).
  - apply triple_call; [exact Logic.I | keep_Has |].
    intros s ms t Hs E. apply (Hread _ _ _ Hs E).
  - intros ms ->.
    eapply (triple_bind (onTransport Has) (announces d) (fun _ => True)); [walk|intros h _].
    eapply (triple_bind (onTransport Has) (announces d) (fun _ => True)); [|intros len _; leaf].
    apply triple_call; [cbn; intros _; reflexivity | keep_Has | intros; exact Logic.I].
Qed.

Lemma iteration_delay : triple (onTransport Has) (announces d) (fun _ => True) (iteration io codec).
Proof.
  unfold iteration.
  eapply (triple_bind (onTransport Has) (announces d) (fun _ => True)); [apply poll_delay|intros [p q] _].
  destruct q; [apply handleIncoming_delay|].
  destruct p; [apply periodicTasks_delay|leaf].
Qed.

Lemma guarded_delay n : triple (onTransport Has) (announces d) (fun _ => True) (guarded io codec n).
Proof.
  unfold guarded, makeMessageBuffer.
  eapply (triple_bind (onTransport Has) (announces d) (fun _ => True)); [leaf|intros _ _].
  eapply (triple_bind (onTransport Has) (announces d) (fun _ => True)); [leaf|intros _ _].
  apply triple_iterations, iteration_delay.
Qed.

Lemma written_Forall evs :
  Forall (announces d) evs ->
  Forall (fun m => isHeartbeat m = true -> enc_tlvs m = [TLVPeriodicityMs d])
    (written evs).
Proof.
  induction 1 as [|e evs He _ IH]; [constructor|].
  destruct e; cbn; try exact IH. constructor; [exact He|exact IH].
Qed.

Lemma mainLoop_delay n (s : State T) :
  Has (st_io (configured io s)) ->
  Forall (fun m => isHeartbeat m = true -> enc_tlvs m = [TLVPeriodicityMs d])
    (written (events (mainLoop io codec n s))).
Proof.
  intros H0. destruct (mainLoop_final n s) as (_ & ->).
  apply written_Forall. apply (guarded_delay n (configured io s) H0).
Qed.

End Delay.

(** X8: the period announced is the period configured: if the transport's
    [delay()] reads back the value [mainLoop] set from [delayms], and keeps
    doing so whatever is called on it, every HELLO request written during
    the run carries exactly one TLV, the periodicity [delayms]. *)
Theorem hello_announces_configured_delay (Has : T -> Prop) n (s : State T) :
  preserved io Has ->
  delayReads io (delayms (st_agent s)) Has ->
  Has (st_io (configured io s)) ->
  Forall (fun m => isHeartbeat m = true ->
                   enc_tlvs m = [TLVPeriodicityMs (delayms (st_agent s))])
    (written (events (mainLoop io codec n s))).
Proof.
  intros Hp Hr H0. apply (mainLoop_delay (delayms (st_agent s)) Has Hp Hr n s H0).
Qed.

(** ** What one iteration may call *)

Ltac all_cases :=
  repeat match goal with
    | |- context [match ?op io ?t with IOok _ _ => _ | IOexn _ _ => _ end] =>
        destruct (op io t) as [? ?|? ?]; cbn
    | |- context [match io_writeMessage io ?b ?t with IOok _ _ => _ | IOexn _ _ => _ end] =>
        destruct (io_writeMessage io b t) as [? ?|? ?]; cbn
    | |- context [if negb ?b then _ else _] => is_var b; destruct b; cbn
    | |- context [if ?b then _ else _] => is_var b; destruct b; cbn
    | |- context [match ?b with [] => _ | _ :: _ => _ end] => is_var b; destruct b; cbn
    | |- context [if isFailure ?x then _ else _] => destruct (isFailure x); cbn
    | |- context [match h_entityClass ?x with _ => _ end] =>
        destruct (h_entityClass x); cbn
    end.

(** X9: the calls of one iteration are bounded: at most one [openSocket],
    one [readMessage], one [writeMessage] and four status checks, and at
    most one call of [sleep] or [isDataAvailable] taken together, which is
    made exactly once whenever the first half of the loop body returns. *)
Theorem iteration_call_budget (s : State T) :
  (count isOpenSocket (events (iteration io codec s)) <= 1)%nat /\
  (count isReadMessage (events (iteration io codec s)) <= 1)%nat /\
  (count isWriteMessage (events (iteration io codec s)) <= 1)%nat /\
  (count isConnectionClosedCall (events (iteration io codec s)) <= 4)%nat /\
  (count isSleepOrPoll (events (iteration io codec s)) <= 1)%nat /\
  (flags io s <> None -> count isSleepOrPoll (events (iteration io codec s)) = 1%nat).
Proof.
  unfold flags, iteration, poll, handleIncoming, periodicTasks, dispatch,
    sendCapabilities, sendHello, fillHeader, bind, isConnectionClosed, openSocket,
    sleep, isDataAvailable, readMessage, writeMessage, delay, call, ret, cout, cerr,
    emit, getBits, modify, count.
  cbn.
  all_cases; repeat split; cbn; try lia; try congruence.
Qed.

(** ** An open, silent connection *)

Lemma poll_open (s : State T) t1 t2 d t3 :
  io_isConnectionClosed io (st_io s) = IOok false t1 ->
  io_isConnectionClosed io t1 = IOok false t2 ->
  io_isDataAvailable io t2 = IOok d t3 ->
  poll io s
  = Normal (negb d, d) (mkState (st_agent s) t3)
      [CallIsConnectionClosed; CallIsConnectionClosed; CallIsDataAvailable].
Proof.
  intros H1 H2 H3.
  unfold poll, bind, isConnectionClosed, isDataAvailable, call, ret.
  rewrite H1. cbn. rewrite H2. cbn. rewrite H3. destruct d; reflexivity.
Qed.

Lemma idle_tick d Idle (s : State T) :
  staysIdle io d Idle -> Idle (st_io s) ->
  exists t e,
    iteration io codec s
    = Normal tt (mkState (with_sequence (u32 (sequence (st_agent s) + 1)) (st_agent s)) t) e /\
    written e = [helloRequest (sequence (st_agent s)) (u64 (enbId (st_agent s))) d] /\
    Idle t.
Proof.
  intros SI I0.
  destruct (SI _ I0) as ((t1 & H1 & I1) & _).
  destruct (SI _ I1) as ((t2 & H2 & I2) & _).
  destruct (SI _ I2) as (_ & (t3 & H3 & I3) & _).
  destruct (SI _ I3) as ((t4 & H4 & I4) & _).
  destruct (SI _ I4) as ((t5 & H5 & I5) & _).
  destruct (SI _ I5) as (_ & _ & (t6 & H6 & I6) & _).
  destruct (SI _ I6) as (_ & _ & _ & W).
  destruct (W (codec_data codec
                 (helloRequest (sequence (st_agent s)) (u64 (enbId (st_agent s))) d)))
    as (len & t7 & H7 & I7).
  rewrite (iteration_after_poll io codec _ _ _ _ _ (poll_open _ _ _ _ _ H1 H2 H3)).
  cbn [negb].
  assert (H4' : io_isConnectionClosed io (st_io (mkState (st_agent s) t3)) = IOok false t4)
    by exact H4.
  rewrite (periodicTasks_open io codec _ _ _ _ H4' H5). cbn [st_agent].
  assert (H6' : io_delay io (st_io (mkState (st_agent s) t5)) = IOok d t6) by exact H6.
  rewrite (sendHello_runs io codec _ _ _ H6'). cbn zeta. cbn [st_agent].
  rewrite H7. cbn [after app].
  do 2 eexists. split; [reflexivity|]. split; [reflexivity|exact I7].
Qed.

(** X10: on a connection that stays open and silent every iteration sends
    a HELLO request: [n] iterations return and write exactly [n] requests,
    numbered consecutively (modulo 2^32) from the current counter, each
    announcing the delay the transport reports. *)
Theorem idle_connection_sends_every_tick d Idle n (s : State T) :
  staysIdle io d Idle -> Idle (st_io s) ->
  returned (iterations io codec n s) = true /\
  written (events (iterations io codec n s))
  = heartbeats (sequence (st_agent s)) (u64 (enbId (st_agent s))) d n.
Proof.
  intros SI. revert s. induction n as [|n IH]; intros s I0; [split; reflexivity|].
  destruct (idle_tick d Idle s SI I0) as (t & e & It & W & I1).
  rewrite iterations_S, It.
  destruct (IH (mkState (with_sequence (u32 (sequence (st_agent s) + 1)) (st_agent s)) t)
              I1) as (R & Wn). cbn [st_agent sequence enbId with_sequence] in Wn.
  destruct (iterations io codec n _) as [[] s2 e2|w s2 e2]; [|discriminate].
  cbn [after returned events] in *.
  split; [reflexivity|]. rewrite written_app, W, Wn. reflexivity.
Qed.

(** ** A connection that never comes up *)

Section Down.

Variable Closed : T -> Prop.
Hypothesis Hpres : preserved io Closed.
Hypothesis Hrep : reportsClosed io Closed.

Ltac keep_Closed :=
  let s := fresh "s" in let Hs := fresh "Hs" in
  intros s Hs; unfold onTransport in *; cbn [st_io st_agent];
  first [ exact Hs | apply (Hpres _ Hs) ].

Ltac quiet_call :=
  apply triple_call; [repeat split | keep_Closed | intros; exact Logic.I].

Lemma check_down :
  triple (onTransport Closed) noTraffic (fun c => c = true) (isConnectionClosed io).
Proof.
  apply triple_call; [repeat split | keep_Closed |].
  intros s c t Hs E. apply (Hrep _ _ _ Hs E).
Qed.

Lemma poll_down :
  triple (onTransport Closed) noTraffic (fun f => f = (true, false)) (poll io).
Proof.
  unfold poll.
  eapply triple_bind; [apply check_down|intros c ->].
  eapply (triple_bind _ _ (fun _ => True)); [unfold openSocket; quiet_call|intros _ _].
  eapply triple_bind; [apply check_down|intros c ->].
  eapply (triple_bind _ _ (fun _ => True)); [unfold sleep; quiet_call|intros _ _].
  apply triple_ret. reflexivity.
Qed.

Lemma iteration_down :
  triple (onTransport Closed) noTraffic (fun _ => True) (iteration io codec).
Proof.
  unfold iteration.
  eapply triple_bind; [apply poll_down|intros f ->].
  cbn iota. unfold periodicTasks.
  eapply (triple_bind _ _ (fun _ => True));
    [apply triple_emit; [repeat split|exact Logic.I]|intros _ _].
  eapply triple_bind; [apply check_down|intros c ->].
  eapply (triple_bind _ _ (fun _ => True));
    [apply triple_emit; [repeat split|exact Logic.I]|intros _ _].
  eapply triple_bind; [apply check_down|intros c ->].
  cbn [negb]. apply triple_ret. exact Logic.I.
Qed.

Lemma guarded_down n :
  triple (onTransport Closed) noTraffic (fun _ => True) (guarded io codec n).
Proof.
  unfold guarded, makeMessageBuffer.
  eapply (triple_bind _ _ (fun _ => True)); [quiet_call|intros _ _].
  eapply (triple_bind _ _ (fun _ => True)); [quiet_call|intros _ _].
  apply triple_iterations, iteration_down.
Qed.

End Down.

(** X12: while every status check that returns reports the connection
    closed, [mainLoop] neither polls for data, nor reads, nor writes, also
    when connecting or sleeping throws and ends the loop. *)
Theorem no_traffic_while_closed (Closed : T -> Prop) n (s : State T) :
  preserved io Closed ->
  reportsClosed io Closed ->
  Closed (st_io (configured io s)) ->
  Forall noTraffic (events (mainLoop io codec n s)).
Proof.
  intros Hp Hr H0. rewrite mainLoop_guarded.
  destruct (guarded_down Closed Hp Hr n (configured io s) H0) as (_ & F & _).
  destruct (guarded io codec n (configured io s)) as [[] s1 e1|[w|] s1 e1];
    cbn [events] in *; [exact F| |exact F].
  apply Forall_app. split; [exact F|]. repeat constructor.
Qed.

End Runs.

(** ** What [init] stores *)

Lemma mod_fits x n : 0 <= x < n -> x mod n = x.
Proof. intros H. apply Z.mod_small. exact H. Qed.

(** X11: after a successful [init] every stored field lies within its C++
    type and the counter is 1; the thread handle is untouched, and when the
    arguments fit the fields they are stored unchanged. *)
Theorem init_stores_configuration {T} (parse : string -> IPv4Address + string)
  args (s : State T) a :
  parse (empoweragent_controller_addr args) = inl a ->
  bitsInRange (st_agent (final (init parse args s))) /\
  sequence (st_agent (final (init parse args s))) = 1 /\
  agentThread (st_agent (final (init parse args s))) = agentThread (st_agent s) /\
  st_io (final (init parse args s)) = st_io s /\
  (argsFit args ->
   st_agent (final (init parse args s))
   = mkBits (agentThread (st_agent s)) a
       (empoweragent_controller_port args) (empoweragent_delayms args)
       (enb_pci args) (enb_dl_earfcn args) (enb_ul_earfcn args) (enb_n_prb args)
       (stack_s1ap_enb_id args) 1).
Proof.
  intros H. rewrite init_runs, H. cbn [final st_agent st_io].
  split; [|split; [reflexivity|split; [reflexivity|split; [reflexivity|]]]].
  - unfold bitsInRange, u8, u16, u32. cbn.
    repeat split; try apply Z.mod_pos_bound; lia.
  - intros (F1 & F2 & F3 & F4 & F5 & F6 & F7).
    unfold u8, u16, u32. rewrite !mod_fits by assumption. reflexivity.
Qed.

(** ** The run theorems at work on the scripted transports *)

Lemma setup_failure_aborts_witness :
  exists calls,
    mainLoop noMemoryIO Sim.codec 5 (mkState Sim.bits Sim.idle)
    = Normal tt (mkState Sim.bits Sim.idle) (calls ++ [caughtNotice "std::bad_alloc"]) /\
    Forall (fun e => e = CallMakeMessageBuffer) calls.
Proof.
  apply (setup_failure_aborts noMemoryIO Sim.codec 5 (mkState Sim.bits Sim.idle)
           "std::bad_alloc" Sim.idle).
  left. reflexivity.
Defined.

Lemma hello_reply_discarded_witness :
  written (events (iteration Sim.io Sim.codec
                     (mkState Sim.bits (Sim.mk false true [[x02; x01]] None 2000 []))))
  = [].
Proof.
  apply (hello_reply_discarded Sim.io Sim.codec
           (mkState Sim.bits (Sim.mk false true [[x02; x01]] None 2000 []))
           false
           (mkState Sim.bits (Sim.mk false true [[x02; x01]] None 2000 []))
           [CallIsConnectionClosed; CallIsConnectionClosed; CallIsDataAvailable]
           [x02; x01] Sim.idle eq_refl eq_refl);
    [discriminate | reflexivity | reflexivity].
Defined.

Lemma counter_counts_messages_witness :
  sequence (st_agent (final (mainLoop Sim.io Sim.codec 3 (mkState Sim.bits Sim.idle))))
  = u32 (1 + Z.of_nat (List.length
                         (written (events (mainLoop Sim.io Sim.codec 3
                                             (mkState Sim.bits Sim.idle)))))) /\
  (List.length (written (events (mainLoop Sim.io Sim.codec 3 (mkState Sim.bits Sim.idle))))
   <= 3)%nat.
Proof.
  apply (counter_counts_messages Sim.io Sim.codec 3 (mkState Sim.bits Sim.idle)).
  cbn. lia.
Defined.

Lemma hello_announces_configured_delay_witness :
  Forall (fun m => isHeartbeat m = true -> enc_tlvs m = [TLVPeriodicityMs 2000])
    (written (events (mainLoop Sim.io Sim.codec 4
                        (mkState Sim.bits (Sim.mk false true [[x01; x02]] None 7 []))))).
Proof.
  apply (hello_announces_configured_delay Sim.io Sim.codec
           (fun x => Sim.delay_ms x = 2000) 4
           (mkState Sim.bits (Sim.mk false true [[x01; x02]] None 7 []))).
  - intros x Hx. cbn. repeat split; try exact Hx.
    + destruct (Sim.inbox x), (Sim.flood x); exact Hx.
    + intros b. exact Hx.
  - intros x ms x' Hx E. cbn in E. inversion E; subst. exact Hx.
  - reflexivity.
Defined.

Lemma iteration_call_budget_witness :
  count isSleepOrPoll (events (iteration Sim.io Sim.codec (mkState Sim.bits Sim.down)))
  = 1%nat.
Proof.
  apply (iteration_call_budget Sim.io Sim.codec (mkState Sim.bits Sim.down)).
  discriminate.
Defined.

Lemma idle_connection_sends_every_tick_witness :
  written (events (iterations Sim.io Sim.codec 3 (mkState Sim.bits Sim.idle)))
  = heartbeats 1 (u64 17) 2000 3.
Proof.
  apply (idle_connection_sends_every_tick Sim.io Sim.codec 2000
           (fun x => Sim.closed x = false /\ Sim.inbox x = [] /\ Sim.flood x = None /\
                     Sim.delay_ms x = 2000)
           3 (mkState Sim.bits Sim.idle)).
  - intros [c k i f d snt] (Hc & Hi & Hf & Hd). cbn in *. subst.
    repeat split; eexists; try eexists; repeat split.
  - repeat split.
Defined.

Lemma init_stores_configuration_witness :
  st_agent (final (init Sim.parse Sim.args (mkState Sim.blank Sim.idle))) = Sim.bits.
Proof.
  apply (init_stores_configuration Sim.parse Sim.args (mkState Sim.blank Sim.idle)
           (mkIPv4 2130706433) eq_refl).
  unfold argsFit. cbn. lia.
Defined.

Lemma no_traffic_while_closed_witness :
  Forall noTraffic (events (mainLoop Sim.io Sim.codec 3 (mkState Sim.bits Sim.down))).
Proof.
  apply (no_traffic_while_closed Sim.io Sim.codec
           (fun x => Sim.closed x = true /\ Sim.connectable x = false) 3
           (mkState Sim.bits Sim.down)).
  - intros [c k i f d snt] (Hc & Hk). cbn in *. subst.
    repeat split; destruct i, f; repeat split.
  - intros x c x' (Hc & _) E. cbn in E. inversion E; subst. exact Hc.
  - split; reflexivity.
Defined.
